(** * SpaceAPI explorer: the status-document models, the client and the
    analyzer

    A shallow embedding of [spaceapi/models.py], of the methods of
    [spaceapi/client.py] and of the analyses of [spaceapi/analyzer.py], and
    the properties of the normalisation of a status document, of the
    directory and of the analyses that follow from them.

    The models are pydantic classes: what a class does with a raw document
    is decided by its field annotations, by its validators (the methods
    [validate_timestamp], [handle_api_versions], [validate_sensors]) and by
    pydantic's validation of the annotations.  The validators are translated
    line by line.  The annotations are translated into validators of the
    same shape (one function per annotation, one record per class), following
    pydantic 2 in its default mode (lax conversions, python input, unions in
    smart mode): [from_dict] calls [HttpUrl(url)], which only pydantic 2
    accepts.  Parsing of strings into numbers, booleans and URLs belongs to
    the library; it is kept abstract in the class [PydanticCore], and the
    properties hold for every instance of it.

    A dict is a [gmap] with string keys; the order of its items plays no
    part in what is proved.  The classes [SpaceArea] and [SpaceSensor] take
    no part in the validation of a document ([SpaceArea] is used by no
    field, and see [sensor_item] for [SpaceSensor]); they are left out.  The
    session of the client, the clock and [str.lower] are variables of the
    sections that use them.  What the analyzer hands to pandas
    ([export_to_dataframe]) is left out, and so is the visualizer.

    Contents: Python values and floats; outcomes of a validation; the
    validators of the annotations; the classes of [models.py]; the client;
    the analyzer; an instance of the library interface and example
    documents; the properties, among them one theorem per claim (C1 to C10)
    and the further properties (X1 to X23), followed at the end of the file
    by their evaluation on examples. *)

From Stdlib Require Import ZArith String List DecimalString.
From Stdlib Require Import Floats.SpecFloat.
From stdpp Require Import base option list gmap strings fin_maps.

Set Warnings "-clear-no-such-hyp,-register-all".

Open Scope Z_scope.

(** ** Python values

    What [response.json()] returns: [None], booleans, integers, floats
    (binary64, as [spec_float]), strings, lists and dicts with string keys. *)

Abbreviation float := spec_float.

Inductive json : Type :=
| JNull
| JBool (b : bool)
| JInt (n : Z)
| JFloat (f : float)
| JStr (s : string)
| JList (l : list json)
| JDict (d : gmap string json).

(** Python's truth value of an object ([if x:], [not x]). *)
Definition truthy (v : json) : bool :=
  match v with
  | JNull => false
  | JBool b => b
  | JInt n => negb (n =? 0)
  | JFloat (S754_zero _) => false
  | JFloat _ => true
  | JStr s => negb (String.eqb s "")
  | JList l => match l with [] => false | _ => true end
  | JDict d => negb (bool_decide (d = ∅))
  end.

(** [v is None] *)
Definition is_none (v : json) : bool :=
  match v with JNull => true | _ => false end.

(** [dict.get(key)]: the value, or [None]. *)
Definition dict_get (key : string) (d : gmap string json) : json :=
  default JNull (d !! key).

(** [key in dict]. *)
Definition dict_contains (key : string) (d : gmap string json) : bool :=
  bool_decide (is_Some (d !! key)).

(** ** Floats *)

Definition prec : Z := 53.
Definition emax : Z := 1024.

(** [float(n)] for an integer [n]; [None] is Python's [OverflowError]. *)
Definition float_of_int (n : Z) : option float :=
  match binary_normalize prec emax n 0 false with
  | S754_infinity _ => None
  | f => Some f
  end.

(** The exceptions that leave a validator as they are.  pydantic turns a
    [ValueError] of a validator into a line of the validation report; any
    other exception crosses [SpaceStatus(...)] unchanged. *)
Inductive exception : Type :=
| TypeError
| AttributeError
| OverflowError.

(** [int(f)]: truncation towards zero.  [int(nan)] is a [ValueError] (here
    [inl None]), [int(inf)] an [OverflowError]. *)
Definition int_of_float (f : float) : option exception + Z :=
  match f with
  | S754_zero _ => inr 0
  | S754_finite s m e =>
      let a := if 0 <=? e then Z.pos m * 2 ^ e else Z.pos m / 2 ^ (- e) in
      inr (if s then - a else a)
  | S754_nan => inl None
  | S754_infinity _ => inl (Some OverflowError)
  end.

(** A float with no fractional part. *)
Definition is_integral (f : float) : bool :=
  match f with
  | S754_zero _ => true
  | S754_finite _ m e => (0 <=? e) || (Z.pos m mod 2 ^ (- e) =? 0)
  | _ => false
  end.

(** The float nearest to the integer [n] (for the bounds of [Field(ge, le)]). *)
Definition float_const (n : Z) : float := binary_normalize prec emax n 0 false.

(** The float nearest to [m * 2 ^ e], to write literals: 21.5 is
    [float_lit 43 (-1)]. *)
Definition float_lit (m e : Z) : float := binary_normalize prec emax m e false.

(** ** Outcome of a validation

    A validator returns its value, or lines for the validation report
    ([ValidationError]), or raises another exception.  A model validates
    every field and gathers the lines of all of them; an exception that is
    not a validation error stops it at once. *)

Inductive error_type : Type :=
| missing
| string_type
| int_type
| int_from_float
| int_parsing
| float_type
| float_parsing
| bool_type
| bool_parsing
| list_type
| dict_type
| model_type
| url_type
| url_parsing
| greater_than_equal
| less_than_equal
| value_error.

(** A place in the document: field names and keys, and list indices. *)
Inductive loc_item : Type :=
| Key (name : string)
| Index (i : nat).

Record line_error : Type := LineError {
  err_loc : list loc_item;
  err_type : error_type
}.

Inductive outcome (A : Type) : Type :=
| Ok (a : A)
| Invalid (errors : list line_error)
| Raised (e : exception).

Arguments Ok {A} a.
Arguments Invalid {A} errors.
Arguments Raised {A} e.

Definition is_ok {A} (r : outcome A) : bool :=
  match r with Ok _ => true | _ => false end.

Definition fail {A} (t : error_type) : outcome A := Invalid [LineError [] t].

Definition omap_ok {A B} (f : A → B) (r : outcome A) : outcome B :=
  match r with
  | Ok a => Ok (f a)
  | Invalid es => Invalid es
  | Raised e => Raised e
  end.

Definition obind {A B} (r : outcome A) (k : A → outcome B) : outcome B :=
  match r with
  | Ok a => k a
  | Invalid es => Invalid es
  | Raised e => Raised e
  end.

(** The next field of a model: lines accumulate, an exception wins, and the
    earlier field's exception comes first. *)
Definition ap {A B} (rf : outcome (A → B)) (ra : outcome A) : outcome B :=
  match rf, ra with
  | Raised e, _ => Raised e
  | _, Raised e => Raised e
  | Invalid e1, Invalid e2 => Invalid (e1 ++ e2)
  | Invalid e1, Ok _ => Invalid e1
  | Ok _, Invalid e2 => Invalid e2
  | Ok f, Ok a => Ok (f a)
  end.

Notation "rf <*> ra" := (ap rf ra) (at level 61, left associativity).

(** Lines of a nested value are reported under the name of the field,
    the index or the key that holds it. *)
Definition at_loc {A} (i : loc_item) (r : outcome A) : outcome A :=
  match r with
  | Invalid es => Invalid (map (λ e, LineError (i :: err_loc e) (err_type e)) es)
  | r => r
  end.

(** ** The library's parsers *)

Record Url : Type := MkUrl { unicode_string : string }.

Class PydanticCore : Type := {
  (** lax conversion of a string to [int], [float] and [bool] *)
  str_as_int : string → option Z;
  str_as_float : string → option float;
  str_as_bool : string → option bool;
  (** lax conversion of a bool to [float] *)
  bool_as_float : bool → option float;
  (** [HttpUrl]: the normalised URL of a string that is an absolute http or
      https URL *)
  parse_http_url : string → option Url;
  (** the text of a URL parses back to that URL *)
  parse_http_url_str :
    ∀ s u, parse_http_url s = Some u → parse_http_url (unicode_string u) = Some u
}.

(** ** Validators of the annotations *)

Section Validators.
Context `{core : PydanticCore}.

(** [str] *)
Definition str_validator (v : json) : outcome string :=
  match v with
  | JStr s => Ok s
  | _ => fail string_type
  end.

(** [int]: an int; in lax mode also a bool, a float without fractional
    part and a numeric string. *)
Definition int_validator (v : json) : outcome Z :=
  match v with
  | JInt n => Ok n
  | JBool b => Ok (if b then 1 else 0)
  | JFloat f =>
      match int_of_float f with
      | inr n => if is_integral f then Ok n else fail int_from_float
      | inl _ => fail int_from_float
      end
  | JStr s => from_option Ok (fail int_parsing) (str_as_int s)
  | _ => fail int_type
  end.

(** [float]: a float ([nan] and the infinities included); in lax mode
    also an int and a numeric string. *)
Definition float_validator (v : json) : outcome float :=
  match v with
  | JFloat f => Ok f
  | JInt n => from_option Ok (fail float_type) (float_of_int n)
  | JBool b => from_option Ok (fail float_type) (bool_as_float b)
  | JStr s => from_option Ok (fail float_parsing) (str_as_float s)
  | _ => fail float_type
  end.

(** [Field(None, ge=lo, le=hi)] on a float.  A [nan] passes neither
    comparison. *)
Definition bounded_float (lo hi : Z) (v : json) : outcome float :=
  obind (float_validator v) (λ f,
    if negb (SFleb (float_const lo) f) then fail greater_than_equal
    else if negb (SFleb f (float_const hi)) then fail less_than_equal
    else Ok f).

(** [bool]: a bool; in lax mode also 0 and 1 and the strings the library
    reads as a truth value. *)
Definition bool_validator (v : json) : outcome bool :=
  match v with
  | JBool b => Ok b
  | JInt n =>
      if n =? 0 then Ok false else if n =? 1 then Ok true else fail bool_parsing
  | JFloat f =>
      if SFeqb f (float_const 0) then Ok false
      else if SFeqb f (float_const 1) then Ok true
      else fail bool_parsing
  | JStr s => from_option Ok (fail bool_parsing) (str_as_bool s)
  | _ => fail bool_type
  end.

(** [HttpUrl] *)
Definition url_validator (v : json) : outcome Url :=
  match v with
  | JStr s => from_option Ok (fail url_parsing) (parse_http_url s)
  | _ => fail url_type
  end.

(** [Any] *)
Definition any_validator (v : json) : outcome json := Ok v.

(** [Optional[T]] *)
Definition optional {A} (validator : json → outcome A) (v : json)
  : outcome (option A) :=
  match v with
  | JNull => Ok None
  | _ => omap_ok Some (validator v)
  end.

(** [List[T]]: every item is validated, the lines of all are reported. *)
Fixpoint list_items {A} (validator : json → outcome A) (i : nat)
    (l : list json) : outcome (list A) :=
  match l with
  | [] => Ok []
  | x :: l' =>
      Ok cons <*> at_loc (Index i) (validator x)
              <*> list_items validator (S i) l'
  end.

Definition list_validator {A} (validator : json → outcome A) (v : json)
  : outcome (list A) :=
  match v with
  | JList l => list_items validator 0 l
  | _ => fail list_type
  end.

(** [Dict[str, T]] *)
Fixpoint dict_items {A} (validator : json → outcome A)
    (items : list (string * json)) : outcome (list (string * A)) :=
  match items with
  | [] => Ok []
  | (k, x) :: items' =>
      Ok (λ a rest, (k, a) :: rest) <*> at_loc (Key k) (validator x)
                                    <*> dict_items validator items'
  end.

Definition dict_validator {A} (validator : json → outcome A) (v : json)
  : outcome (gmap string A) :=
  match v with
  | JDict d => omap_ok list_to_map (dict_items validator (map_to_list d))
  | _ => fail dict_type
  end.

(** A field with a default: the default when the key is absent (defaults
    are not validated), else the validated value. *)
Definition field {A} (name : string) (validator : json → outcome A)
    (dflt : A) (data : gmap string json) : outcome A :=
  match data !! name with
  | Some v => at_loc (Key name) (validator v)
  | None => Ok dflt
  end.

(** A field without default. *)
Definition required {A} (name : string) (validator : json → outcome A)
    (data : gmap string json) : outcome A :=
  match data !! name with
  | Some v => at_loc (Key name) (validator v)
  | None => Invalid [LineError [Key name] missing]
  end.

(** A model class used as an annotation: built from a dict. *)
Definition model {A} (of_dict : gmap string json → outcome A) (v : json)
  : outcome A :=
  match v with
  | JDict d => of_dict d
  | _ => fail model_type
  end.
End Validators.

(** ** Serialisation

    Modelled from the spec: [serialize], the way back from a record to a
    JSON-like value, which the repository does not define.  A record is
    written field by field under the names of its class (as the [model_dump]
    that the classes inherit from [BaseModel] does): a field that is [None]
    as null, a URL as its text, a nested record as an object. *)

Definition dump_option {A} (dump : A → json) (o : option A) : json :=
  from_option dump JNull o.

Definition dump_url (u : Url) : json := JStr (unicode_string u).

Definition dump_list {A} (dump : A → json) (l : list A) : json :=
  JList (dump <$> l).

Definition dump_dict {A} (dump : A → json) (d : gmap string A) : json :=
  JDict (dump <$> d).

(** ** models.py *)

(** *** class SpaceContact *)
Module SpaceContact.

Record t : Type := Make {
  email : option string;
  irc : option string;
  ml : option string;
  twitter : option string;
  facebook : option string;
  mastodon : option string;
  phone : option string;
  sip : option string;
  jabber : option string;
  issue_mail : option string
}.

Definition of_dict (data : gmap string json) : outcome t :=
  Ok Make
    <*> field "email" (optional str_validator) None data
    <*> field "irc" (optional str_validator) None data
    <*> field "ml" (optional str_validator) None data
    <*> field "twitter" (optional str_validator) None data
    <*> field "facebook" (optional str_validator) None data
    <*> field "mastodon" (optional str_validator) None data
    <*> field "phone" (optional str_validator) None data
    <*> field "sip" (optional str_validator) None data
    <*> field "jabber" (optional str_validator) None data
    <*> field "issue_mail" (optional str_validator) None data.

(** Modelled from the spec: [serialize] for a [SpaceContact], every field under
    its name. *)
Definition model_dump (c : t) : json :=
  JDict (list_to_map [
    ("email", dump_option JStr (email c));
    ("irc", dump_option JStr (irc c));
    ("ml", dump_option JStr (ml c));
    ("twitter", dump_option JStr (twitter c));
    ("facebook", dump_option JStr (facebook c));
    ("mastodon", dump_option JStr (mastodon c));
    ("phone", dump_option JStr (phone c));
    ("sip", dump_option JStr (sip c));
    ("jabber", dump_option JStr (jabber c));
    ("issue_mail", dump_option JStr (issue_mail c))]).

End SpaceContact.

(** *** class SpaceLocation *)
Module SpaceLocation.

Record t : Type := Make {
  address : option string;
  lat : option float;
  lon : option float;
  timezone : option string
}.

Section validate.
Context `{core : PydanticCore}.

Definition of_dict (data : gmap string json) : outcome t :=
  Ok Make
    <*> field "address" (optional str_validator) None data
    <*> field "lat" (optional (bounded_float (-90) 90)) None data
    <*> field "lon" (optional (bounded_float (-180) 180)) None data
    <*> field "timezone" (optional str_validator) None data.

End validate.

(** Modelled from the spec: [serialize] for a [SpaceLocation], every field under
    its name. *)
Definition model_dump (l : t) : json :=
  JDict (list_to_map [
    ("address", dump_option JStr (address l));
    ("lat", dump_option JFloat (lat l));
    ("lon", dump_option JFloat (lon l));
    ("timezone", dump_option JStr (timezone l))]).

End SpaceLocation.

(** *** class SpaceStateIcon *)
Module SpaceStateIcon.

Record t : Type := Make {
  open : Url;
  closed : Url
}.

Section validate.
Context `{core : PydanticCore}.

Definition of_dict (data : gmap string json) : outcome t :=
  Ok Make
    <*> required "open" url_validator data
    <*> required "closed" url_validator data.

End validate.

(** Modelled from the spec: [serialize] for a [SpaceStateIcon], every field under
    its name. *)
Definition model_dump (i : t) : json :=
  JDict (list_to_map [
    ("open", dump_url (open i));
    ("closed", dump_url (closed i))]).

End SpaceStateIcon.

(** A value of [Union[int, float]]. *)
Inductive number : Type :=
| NInt (n : Z)
| NFloat (f : float).

Definition dump_number (x : number) : json :=
  match x with
  | NInt n => JInt n
  | NFloat f => JFloat f
  end.

(** *** class SpaceState *)
Module SpaceState.

Record t : Type := Make {
  open : option bool;
  lastchange : option number;
  trigger_person : option string;
  message : option string;
  icon : option SpaceStateIcon.t
}.

(** [v < 0] for a Python object [v]: integers and booleans compare as
    numbers, floats as floats; [None], strings, lists and dicts do not
    compare with an integer ([TypeError]). *)
Definition lt_zero (v : json) : outcome bool :=
  match v with
  | JInt n => Ok (n <? 0)
  | JBool b => Ok false
  | JFloat f => Ok (SFltb f (float_const 0))
  | _ => Raised TypeError
  end.

(** [@validator('lastchange', pre=True)]: it gets the raw value of the key
    and its result is what the annotation then validates. *)
Definition validate_timestamp (v : json) : outcome json :=
  match v with
  | JNull => Ok v
  | _ =>
      (* Convert float timestamps to int *)
      obind (match v with
             | JFloat f =>
                 match int_of_float f with
                 | inr n => Ok (JInt n)
                 | inl None => fail value_error
                 | inl (Some e) => Raised e
                 end
             | _ => Ok v
             end) (λ v,
      obind (lt_zero v) (λ negative,
      if negative then Ok JNull else Ok v))
  end.

Section validate.
Context `{core : PydanticCore}.

(** [Union[int, float]]: the member the value is an instance of; failing
    that the first member that converts it, [int] before [float]. *)
Definition number_validator (v : json) : outcome number :=
  match v with
  | JInt n => Ok (NInt n)
  | JFloat f => Ok (NFloat f)
  | _ =>
      match int_validator v with
      | Ok n => Ok (NInt n)
      | Raised e => Raised e
      | Invalid e1 =>
          match float_validator v with
          | Ok f => Ok (NFloat f)
          | Raised e => Raised e
          | Invalid e2 => Invalid (e1 ++ e2)
          end
      end
  end.

(** The field [lastchange]: its validator first, then its annotation
    [Optional[Union[int, float]]]. *)
Definition lastchange_validator (v : json) : outcome (option number) :=
  obind (validate_timestamp v) (optional number_validator).

Definition of_dict (data : gmap string json) : outcome t :=
  Ok Make
    <*> field "open" (optional bool_validator) None data
    <*> field "lastchange" lastchange_validator None data
    <*> field "trigger_person" (optional str_validator) None data
    <*> field "message" (optional str_validator) None data
    <*> field "icon" (optional (model SpaceStateIcon.of_dict)) None data.

End validate.

(** Modelled from the spec: [serialize] for a [SpaceState], every field under
    its name. *)
Definition model_dump (s : t) : json :=
  JDict (list_to_map [
    ("open", dump_option JBool (open s));
    ("lastchange", dump_option dump_number (lastchange s));
    ("trigger_person", dump_option JStr (trigger_person s));
    ("message", dump_option JStr (message s));
    ("icon", dump_option SpaceStateIcon.model_dump (icon s))]).

End SpaceState.

(** A value of [Union[Dict[str, Any], str]]. *)
Inductive extra_value : Type :=
| ExtraDict (d : gmap string json)
| ExtraStr (s : string).

Definition dump_extra (x : extra_value) : json :=
  match x with
  | ExtraDict d => JDict d
  | ExtraStr s => JStr s
  end.

(** *** class SpaceEvent *)
Module SpaceEvent.

Record t : Type := Make {
  name : string;
  type : option string;
  timestamp : option Z;
  extra : option extra_value
}.

Section validate.
Context `{core : PydanticCore}.

Definition extra_validator (v : json) : outcome extra_value :=
  match v with
  | JDict d => Ok (ExtraDict d)
  | JStr s => Ok (ExtraStr s)
  | _ => Invalid [LineError [] dict_type; LineError [] string_type]
  end.

Definition of_dict (data : gmap string json) : outcome t :=
  Ok Make
    <*> required "name" str_validator data
    <*> field "type" (optional str_validator) None data
    <*> field "timestamp" (optional int_validator) None data
    <*> field "extra" (optional extra_validator) None data.

End validate.

(** Modelled from the spec: [serialize] for a [SpaceEvent], every field under
    its name. *)
Definition model_dump (e : t) : json :=
  JDict (list_to_map [
    ("name", JStr (name e));
    ("type", dump_option JStr (type e));
    ("timestamp", dump_option JInt (timestamp e));
    ("extra", dump_option dump_extra (extra e))]).

End SpaceEvent.

(** *** class SpaceProject *)
Module SpaceProject.

Record t : Type := Make {
  name : option string;
  url : Url;
  description : option string;
  type : option string
}.

Section validate.
Context `{core : PydanticCore}.

Definition of_dict (data : gmap string json) : outcome t :=
  Ok Make
    <*> field "name" (optional str_validator) None data
    <*> required "url" url_validator data
    <*> field "description" (optional str_validator) None data
    <*> field "type" (optional str_validator) None data.

End validate.

(** Modelled from the spec: [serialize] for a [SpaceProject], every field under
    its name. *)
Definition model_dump (p : t) : json :=
  JDict (list_to_map [
    ("name", dump_option JStr (name p));
    ("url", dump_url (url p));
    ("description", dump_option JStr (description p));
    ("type", dump_option JStr (type p))]).

End SpaceProject.

(** A value of [Union[HttpUrl, SpaceProject]]. *)
Inductive project_item : Type :=
| ProjectUrl (u : Url)
| Project (p : SpaceProject.t).

Definition dump_project (x : project_item) : json :=
  match x with
  | ProjectUrl u => dump_url u
  | Project p => SpaceProject.model_dump p
  end.

(** A value of [Union[SpaceSensor, Dict[str, Any], None]] made from a
    document.  A dict is an instance of [Dict[str, Any]], and the union
    prefers the member the value is an instance of over [SpaceSensor],
    which would have to be built from it: no document yields a
    [SpaceSensor] object. *)
Inductive sensor_item : Type :=
| SensorDict (d : gmap string json)
| SensorNone.

Definition dump_sensor (x : sensor_item) : json :=
  match x with
  | SensorDict d => JDict d
  | SensorNone => JNull
  end.

(** *** class SpaceStatus *)
Module SpaceStatus.

Record t : Type := Make {
  api_compatibility : option (list string);
  api : option string;
  space : string;
  logo : option Url;
  url : option Url;
  location : option SpaceLocation.t;
  contact : option SpaceContact.t;
  issue_report_channels : option (list string);
  state : option SpaceState.t;
  events : option (list SpaceEvent.t);
  projects : option (list project_item);
  spacefed : option (gmap string bool);
  cam : option (list Url);
  feed : option (gmap string Url);
  radio_show : option (list Url);
  cache : option (gmap string json);
  projects_url : option Url;
  sensors : option (gmap string (list sensor_item));
  links : option (list (gmap string json));
  icon : option SpaceStateIcon.t;
  times : option (gmap string json)
}.

(** [@root_validator(pre=True)]: it gets the keyword arguments of
    [SpaceStatus(...)] as a dict and returns the dict the fields are read
    from. *)
Definition handle_api_versions (values : gmap string json)
  : gmap string json :=
  (* Handle 'api' field for older versions *)
  let values :=
    if dict_contains "api" values
       && negb (dict_contains "api_compatibility" values)
    then
      let api_version := dict_get "api" values in
      let values := delete "api" values in
      if truthy api_version
      then <["api_compatibility" := JList [api_version]]> values
      else values
    else values in
  (* Ensure we have at least one version field *)
  if negb (truthy (dict_get "api_compatibility" values))
     && negb (truthy (dict_get "api" values))
  then <["api_compatibility" := JList [JStr "14"]]> values
  else values.

(** The items a [for] loop takes from an object: the items of a list, the
    characters of a string, the keys of a dict; other objects are not
    iterable. *)
Definition iterate (v : json) : outcome (list json) :=
  match v with
  | JList l => Ok l
  | JStr s => Ok ((λ c, JStr (String c EmptyString)) <$> list_ascii_of_string s)
  | JDict d => Ok (JStr <$> (map_to_list d).*1)
  | _ => Raised TypeError
  end.

(** The dict [cleaned_sensor] made from a dict [sensor]: the items whose
    value is not [None], and a default for the name. *)
Definition cleaned_sensor (sensor_type : string) (sensor : gmap string json)
  : gmap string json :=
  (* Filter out None values and ensure required fields have defaults *)
  let cleaned_sensor := filter (λ kv, is_none kv.2 = false) sensor in
  if dict_contains "name" cleaned_sensor then cleaned_sensor
  else <["name" := JStr (sensor_type +:+ "_sensor")]> cleaned_sensor.

(** The body of the inner loop of [validate_sensors]: what one [sensor] adds
    to [cleaned_sensor_list], if anything. *)
Definition clean_sensor (sensor_type : string) (sensor : json) : option json :=
  match sensor with
  | JNull => None
  | JDict d => Some (JDict (cleaned_sensor sensor_type d))
  | _ => Some sensor
  end.

(** The body of the outer loop: one [(sensor_type, sensors)] item of
    [v.items()], with [cleaned_sensors] as built so far. *)
Definition clean_sensors_item (sensor_type : string) (sensors : json)
    (cleaned_sensors : gmap string json) : outcome (gmap string json) :=
  match sensors with
  | JNull => Ok cleaned_sensors
  | _ =>
      obind (iterate sensors) (λ l,
        let cleaned_sensor_list := omap (clean_sensor sensor_type) l in
        if truthy (JList cleaned_sensor_list)
        then Ok (<[sensor_type := JList cleaned_sensor_list]> cleaned_sensors)
        else Ok cleaned_sensors)
  end.

(** [@validator('sensors', pre=True)] *)
Definition validate_sensors (v : json) : outcome json :=
  match v with
  | JNull => Ok JNull
  | JDict d =>
      obind (map_fold (λ sensor_type sensors acc,
                         obind acc (clean_sensors_item sensor_type sensors))
                      (Ok ∅) d) (λ cleaned_sensors,
      if truthy (JDict cleaned_sensors) then Ok (JDict cleaned_sensors)
      else Ok JNull)
  | _ => Raised AttributeError
  end.

Section validate.
Context `{core : PydanticCore}.

Definition project_validator (v : json) : outcome project_item :=
  match v with
  | JStr _ => omap_ok ProjectUrl (url_validator v)
  | JDict d => omap_ok Project (SpaceProject.of_dict d)
  | _ => Invalid [LineError [] url_type; LineError [] model_type]
  end.

Definition sensor_validator (v : json) : outcome sensor_item :=
  match v with
  | JDict d => Ok (SensorDict d)
  | JNull => Ok SensorNone
  | _ => Invalid [LineError [] model_type; LineError [] dict_type]
  end.

(** The field [sensors]: its validator first, then its annotation
    [Optional[Dict[str, List[Union[SpaceSensor, Dict[str, Any], None]]]]]. *)
Definition sensors_validator (v : json)
  : outcome (option (gmap string (list sensor_item))) :=
  obind (validate_sensors v)
    (optional (dict_validator (list_validator sensor_validator))).

(** Validation of the fields, in the order of the class. *)
Definition of_dict (data : gmap string json) : outcome t :=
  Ok Make
    <*> field "api_compatibility" (optional (list_validator str_validator))
          None data
    <*> field "api" (optional str_validator) None data
    <*> required "space" str_validator data
    <*> field "logo" (optional url_validator) None data
    <*> field "url" (optional url_validator) None data
    <*> field "location" (optional (model SpaceLocation.of_dict)) None data
    <*> field "contact" (optional (model SpaceContact.of_dict)) None data
    <*> field "issue_report_channels"
          (optional (list_validator str_validator)) None data
    <*> field "state" (optional (model SpaceState.of_dict)) None data
    <*> field "events" (optional (list_validator (model SpaceEvent.of_dict)))
          None data
    <*> field "projects" (optional (list_validator project_validator))
          None data
    <*> field "spacefed" (optional (dict_validator bool_validator)) None data
    <*> field "cam" (optional (list_validator url_validator)) None data
    <*> field "feed" (optional (dict_validator url_validator)) None data
    <*> field "radio_show" (optional (list_validator url_validator)) None data
    <*> field "cache" (optional (dict_validator any_validator)) None data
    <*> field "projects_url" (optional url_validator) None data
    <*> field "sensors" sensors_validator None data
    <*> field "links"
          (optional (list_validator (dict_validator any_validator))) None data
    <*> field "icon" (optional (model SpaceStateIcon.of_dict)) None data
    <*> field "times" (optional (dict_validator any_validator)) None data.

(** The constructor call of the class, [values] being its keyword
    arguments. *)
Definition init (values : gmap string json) : outcome t :=
  of_dict (handle_api_versions values).

End validate.

(** Modelled from the spec: [serialize], which the repository does not
    define: the record as a JSON-like object, every field of the class under
    its name. *)
Definition model_dump (s : t) : gmap string json :=
  list_to_map [
    ("api_compatibility", dump_option (dump_list JStr) (api_compatibility s));
    ("api", dump_option JStr (api s));
    ("space", JStr (space s));
    ("logo", dump_option dump_url (logo s));
    ("url", dump_option dump_url (url s));
    ("location", dump_option SpaceLocation.model_dump (location s));
    ("contact", dump_option SpaceContact.model_dump (contact s));
    ("issue_report_channels",
      dump_option (dump_list JStr) (issue_report_channels s));
    ("state", dump_option SpaceState.model_dump (state s));
    ("events", dump_option (dump_list SpaceEvent.model_dump) (events s));
    ("projects", dump_option (dump_list dump_project) (projects s));
    ("spacefed", dump_option (dump_dict JBool) (spacefed s));
    ("cam", dump_option (dump_list dump_url) (cam s));
    ("feed", dump_option (dump_dict dump_url) (feed s));
    ("radio_show", dump_option (dump_list dump_url) (radio_show s));
    ("cache", dump_option JDict (cache s));
    ("projects_url", dump_option dump_url (projects_url s));
    ("sensors", dump_option (dump_dict (dump_list dump_sensor)) (sensors s));
    ("links", dump_option (dump_list JDict) (links s));
    ("icon", dump_option SpaceStateIcon.model_dump (icon s));
    ("times", dump_option JDict (times s))].

End SpaceStatus.

(** *** class SpaceDirectory *)
Module SpaceDirectory.

Record t : Type := Make {
  spaces : gmap string Url
}.

Section validate.
Context `{core : PydanticCore}.

(** One turn of the loop of [from_dict]: [spaces[name] = HttpUrl(url)];
    [HttpUrl(url)] raises a validation error for what is no URL. *)
Definition from_dict_item (name : string) (url : json)
    (spaces : gmap string Url) : outcome (gmap string Url) :=
  obind (url_validator url) (λ u, Ok (<[name := u]> spaces)).

(** [SpaceDirectory.from_dict(data)]; [data.items()] of what is no dict is
    an [AttributeError].  The URLs being validated already, [cls(spaces=...)]
    accepts them. *)
Definition from_dict (data : json) : outcome t :=
  match data with
  | JDict d =>
      obind (map_fold (λ name url acc, obind acc (from_dict_item name url))
                      (Ok ∅) d) (λ spaces,
      Ok (Make spaces))
  | _ => Raised AttributeError
  end.

End validate.

End SpaceDirectory.

(** ** client.py *)

(** What [self.session.get(space_url, timeout=...)], [raise_for_status()]
    and [response.json()] come to for one URL: a [RequestException] (a
    timeout, a connection error, the retries of the adapter exhausted, an
    HTTP error status), a body that is no JSON, or the decoded body. *)
Inductive request_exception : Type :=
| Timeout
| ConnectionError
| RetryError (status_code : Z)
| HTTPError (status_code : Z).

Inductive reply : Type :=
| RequestFailed (e : request_exception)
| InvalidJson
| JsonBody (space_data : json).

Section Client.
Context `{core : PydanticCore}.
(** The network as seen through the session. *)
Variable session_get : string → reply.

(** The call of [SpaceStatus] with [space_data] unpacked into keyword
    arguments: unpacking what is no dict is a [TypeError]. *)
Definition SpaceStatus_call (space_data : json) : outcome SpaceStatus.t :=
  match space_data with
  | JDict values => SpaceStatus.init values
  | _ => Raised TypeError
  end.

(** [SpaceAPIClient.get_space_status]: every exception is caught and
    answered with [None]. *)
Definition get_space_status (space_url : string) : option SpaceStatus.t :=
  match session_get space_url with
  | RequestFailed _ => None
  | InvalidJson => None
  | JsonBody space_data =>
      match SpaceStatus_call space_data with
      | Ok status => Some status
      | Invalid _ => None
      | Raised _ => None
      end
  end.

(** [fetch_space], the task submitted for each URL. *)
Definition fetch_space (url : string) : string * option SpaceStatus.t :=
  (url, get_space_status url).

(** The loop over [as_completed(future_to_url)]: the results of the tasks,
    in the order in which they finish, are stored under their URL. *)
Definition collect_results
    (completed : list (string * option SpaceStatus.t))
  : gmap string (option SpaceStatus.t) :=
  foldl (λ results task, <[task.1 := task.2]> results) ∅ completed.

(** [SpaceAPIClient.get_multiple_space_statuses]: one task per element of
    [space_urls]; the pool finishes them in some order.  A pool of no worker
    cannot be made ([ThreadPoolExecutor] raises a [ValueError]): then the
    call returns nothing. *)
Inductive get_multiple_space_statuses (space_urls : list string)
    (max_concurrent : Z) : gmap string (option SpaceStatus.t) → Prop :=
| as_completed (completed : list (string * option SpaceStatus.t)) :
    0 < max_concurrent →
    completed ≡ₚ fetch_space <$> space_urls →
    get_multiple_space_statuses space_urls max_concurrent
      (collect_results completed).

End Client.

(** *** The directory of the client

    [get_directory], [search_spaces] and [get_directory_stats] let their
    exceptions through to the caller. *)

(** An exception that leaves a method of the client: a [RequestException]
    of the session, a body that is no JSON, the validation report of
    pydantic, another exception raised inside the models, or a [ValueError]
    with its message. *)
Inductive client_exception : Type :=
| RequestException (e : request_exception)
| JSONDecodeError
| ValidationError (errors : list line_error)
| Uncaught (e : exception)
| ValueError (message : string).

(** What a call of such a method comes to: the value it returns, or the
    exception it raises. *)
Inductive result (A : Type) : Type :=
| Return (a : A)
| Raise (e : client_exception).

Arguments Return {A} a.
Arguments Raise {A} e.

(** [sub in s] for two strings: [s] has [sub] as a substring. *)
Definition str_in (sub s : string) : bool :=
  if String.index 0 sub s is Some _ then true else false.

(** The dict [stats] of [get_directory_stats]. *)
Record directory_stats : Type := DirectoryStats {
  total_spaces : nat;
  last_updated : string;
  sample_spaces : list string
}.

Section DirectoryClient.
Context `{core : PydanticCore}.
Variable session_get : string → reply.
(** [self.directory_url] *)
Variable directory_url : string.
(** [str.lower] *)
Variable lower : string → string.
(** [datetime.now().isoformat()] at the time of the call *)
Variable now_isoformat : string.

(** [SpaceAPIClient.get_directory]: both [except] clauses log the exception
    and raise it again, and what they do not catch goes on as it is.  The
    argument [force_refresh] is not used. *)
Definition get_directory (force_refresh : bool) : result SpaceDirectory.t :=
  match session_get directory_url with
  | RequestFailed e => Raise (RequestException e)
  | InvalidJson => Raise JSONDecodeError
  | JsonBody directory_data =>
      match SpaceDirectory.from_dict directory_data with
      | Ok directory => Return directory
      | Invalid errors => Raise (ValidationError errors)
      | Raised e => Raise (Uncaught e)
      end
  end.

(** [SpaceAPIClient.search_spaces]: the directory is fetched first, the
    search field is looked at afterwards. *)
Definition search_spaces (query search_field : string) : result (list string) :=
  match get_directory false with
  | Raise e => Raise e
  | Return directory =>
      let query_lower := lower query in
      if String.eqb search_field "name" then
        Return (omap (λ item : string * Url,
                        if str_in query_lower (lower item.1)
                        then Some (unicode_string item.2) else None)
                     (map_to_list (SpaceDirectory.spaces directory)))
      else Raise (ValueError ("Unsupported search field: " +:+ search_field))
  end.

(** [SpaceAPIClient.get_directory_stats] *)
Definition get_directory_stats : result directory_stats :=
  match get_directory false with
  | Raise e => Raise e
  | Return directory =>
      (* Extract some basic info from space names *)
      let space_names := (map_to_list (SpaceDirectory.spaces directory)).*1 in
      Return {| total_spaces := size (SpaceDirectory.spaces directory);
                last_updated := now_isoformat;
                sample_spaces := take 10 space_names |}
  end.

End DirectoryClient.

(** ** analyzer.py *)

(** [if o:] for an attribute that holds [None] or an object of a class
    without a truth value of its own (a model): it is not [None]. *)
Definition is_set {A} (o : option A) : bool :=
  if o is Some _ then true else false.

(** [if o:] for an attribute that holds [None] or a string or a number. *)
Definition truthy_attr {A} (value : A → json) (o : option A) : bool :=
  from_option (λ a, truthy (value a)) false o.

(** [sum(1 for x in l if p(x))] *)
Definition count_if {A} (p : A → bool) (l : list A) : nat :=
  length (List.filter p l).

(** An integer as a float with the integer as its mantissa, whatever its
    size. *)
Definition Z2SF (n : Z) : float :=
  match n with
  | 0 => S754_zero false
  | Z.pos p => S754_finite false p 0
  | Z.neg p => S754_finite true p 0
  end.

(** [a / b] for two integers, [b] not zero: the float nearest to the
    quotient. *)
Definition int_true_divide (a b : Z) : float :=
  SFdiv prec emax (Z2SF a) (Z2SF b).

(** [(count / total * 100) if total > 0 else 0] *)
Definition percentage (count total : nat) : number :=
  if (0 <? total)%nat
  then NFloat (SFmul prec emax
                 (int_true_divide (Z.of_nat count) (Z.of_nat total))
                 (float_const 100))
  else NInt 0.

(** [counts[key] += 1] on a [defaultdict(int)] *)
Definition increment (key : string) (counts : gmap string nat)
  : gmap string nat :=
  <[key := S (default 0%nat (counts !! key))]> counts.

(** [sum(counts.values())] *)
Definition sum_values (counts : gmap string nat) : nat :=
  map_fold (λ _ n total, (total + n)%nat) 0%nat counts.

(** [x - y] for a float [x] and a number [y]: an integer is converted to a
    float first, which is an [OverflowError] when it is too large. *)
Definition float_sub (x : float) (y : number) : outcome float :=
  match y with
  | NFloat f => Ok (SFsub prec emax x f)
  | NInt n =>
      match float_of_int n with
      | Some f => Ok (SFsub prec emax x f)
      | None => Raised OverflowError
      end
  end.

(** [x != value] for an attribute [x] that holds [None] or a bool: a bool
    equals the numbers 0 and 1 too. *)
Definition bool_attr_ne (x : option bool) (value : json) : bool :=
  match x, value with
  | None, JNull => false
  | Some b, JBool b' => negb (Bool.eqb b b')
  | Some b, JInt n => negb (n =? (if b then 1 else 0))
  | Some b, JFloat f => negb (SFeqb f (float_const (if b then 1 else 0)))
  | _, _ => true
  end.


Module SpaceAnalyzer.

Record t : Type := Make {
  spaces_data : list SpaceStatus.t;
  directory : option SpaceDirectory.t
}.

(** [SpaceAnalyzer()] *)
Definition init : t := Make [] None.

Definition load_spaces (self : t) (spaces_data : list SpaceStatus.t) : t :=
  Make spaces_data (directory self).

Definition load_directory (self : t) (directory : SpaceDirectory.t) : t :=
  Make (spaces_data self) (Some directory).

(** The dict that an analysis returns: [{"error": "No space data loaded"}]
    when no space is loaded, else its figures. *)
Inductive analysis (A : Type) : Type :=
| NoSpaceData
| Figures (figures : A).

Arguments NoSpaceData {A}.
Arguments Figures {A} figures.

(** *** get_basic_stats *)

Record basic_stats : Type := BasicStats {
  total_spaces : nat;
  spaces_with_location : nat;
  spaces_with_state : nat;
  currently_open : nat;
  open_percentage : number;
  last_updated : string
}.

(** [space.state and space.state.open is True] *)
Definition is_open (space : SpaceStatus.t) : bool :=
  match SpaceStatus.state space with
  | Some state => if SpaceState.open state is Some true then true else false
  | None => false
  end.

Section Analyses.
(** [datetime.now(timezone.utc)] at the time of the call: its
    [isoformat()] and its [timestamp()]. *)
Variable now_isoformat : string.
Variable now : float.
(** [str.lower] *)
Variable lower : string → string.

Definition get_basic_stats (self : t) : analysis basic_stats :=
  if spaces_data self is [] then NoSpaceData else
  let total_spaces := length (spaces_data self) in
  let spaces_with_location :=
    count_if (λ space, is_set (SpaceStatus.location space))
      (spaces_data self) in
  let spaces_with_state :=
    count_if (λ space, is_set (SpaceStatus.state space)) (spaces_data self) in
  let spaces_open := count_if is_open (spaces_data self) in
  Figures {|
    total_spaces := total_spaces;
    spaces_with_location := spaces_with_location;
    spaces_with_state := spaces_with_state;
    currently_open := spaces_open;
    open_percentage := percentage spaces_open spaces_with_state;
    last_updated := now_isoformat
  |}.

(** *** analyze_geographic_distribution *)

(** An item of [locations]. *)
Record located : Type := Located {
  loc_name : string;
  loc_lat : float;
  loc_lon : float;
  loc_address : option string
}.

Record geographic_distribution : Type := GeographicDistribution {
  total_locations : nat;
  regions : gmap string nat;
  locations : list located
}.

(** The body of the first loop: the item that a space adds to [locations],
    if any. *)
Definition location_of (space : SpaceStatus.t) : option located :=
  match SpaceStatus.location space with
  | Some location =>
      if truthy_attr JFloat (SpaceLocation.lat location)
         && truthy_attr JFloat (SpaceLocation.lon location)
      then
        match SpaceLocation.lat location, SpaceLocation.lon location with
        | Some lat, Some lon =>
            Some {| loc_name := SpaceStatus.space space;
                    loc_lat := lat;
                    loc_lon := lon;
                    loc_address := SpaceLocation.address location |}
        | _, _ => None
        end
      else None
  | None => None
  end.

(** [lo <= x <= hi] with integer bounds *)
Definition between (lo : Z) (x : float) (hi : Z) : bool :=
  SFleb (float_const lo) x && SFleb x (float_const hi).

(** The region of the second loop: very rough continental grouping. *)
Definition region_of (lat lon : float) : string :=
  if SFltb (float_const 60) lat then "Arctic"
  else if between 30 lat 60 then
    if between (-140) lon (-40) then "North America"
    else if between (-10) lon 40 then
      if SFltb (float_const 0) lat then "Europe" else "North Africa"
    else "Asia"
  else if between (-30) lat 30 then
    if between (-80) lon (-30) then "South America"
    else if between (-20) lon 50 then "Africa/Middle East"
    else "Asia-Pacific"
  else "Southern Hemisphere".

(** [regions[region].append(loc)] on a [defaultdict(list)] *)
Definition append_to (region : string) (loc : located)
    (regions : gmap string (list located)) : gmap string (list located) :=
  <[region := default [] (regions !! region) ++ [loc]]> regions.

Definition analyze_geographic_distribution (self : t)
  : analysis geographic_distribution :=
  if spaces_data self is [] then NoSpaceData else
  let locations := omap location_of (spaces_data self) in
  (* Group by approximate regions (very rough grouping) *)
  let regions :=
    foldl (λ regions loc,
             append_to (region_of (loc_lat loc) (loc_lon loc)) loc regions)
          ∅ locations in
  Figures {|
    total_locations := length locations;
    regions := length <$> regions;
    locations := locations
  |}.

(** *** analyze_opening_patterns *)

(** An item of [status_data]; [hours_since_change] is a key that the dict
    may lack. *)
Record status_info : Type := StatusInfo {
  status_name : string;
  status_open : option bool;
  status_lastchange : option number;
  status_message : option string;
  hours_since_change : option float
}.

Record opening_patterns : Type := OpeningPatterns {
  total_with_status : nat;
  open_count : nat;
  closed_count : nat;
  recent_changes : nat;
  open_spaces : list string;
  status_details : list status_info
}.

(** The body of the loop for a space with a state. *)
Definition status_info_of (space : SpaceStatus.t) (state : SpaceState.t)
  : outcome status_info :=
  omap_ok (StatusInfo (SpaceStatus.space space) (SpaceState.open state)
             (SpaceState.lastchange state) (SpaceState.message state))
    (* Calculate time since last change *)
    (match SpaceState.lastchange state with
     | Some lastchange =>
         if truthy (dump_number lastchange)
         then omap_ok (λ d, Some (SFdiv prec emax d (float_const 3600)))
                (float_sub now lastchange)
         else Ok None
     | None => Ok None
     end).

(** The loop that fills [status_data]. *)
Fixpoint status_data (spaces : list SpaceStatus.t)
  : outcome (list status_info) :=
  match spaces with
  | [] => Ok []
  | space :: spaces =>
      match SpaceStatus.state space with
      | Some state =>
          obind (status_info_of space state) (λ status_info,
          omap_ok (cons status_info) (status_data spaces))
      | None => status_data spaces
      end
  end.

(** [s.get("hours_since_change", 0) < 24] *)
Definition changed_recently (s : status_info) : bool :=
  match hours_since_change s with
  | Some hours => SFltb hours (float_const 24)
  | None => 0 <? 24
  end.

Definition analyze_opening_patterns (self : t)
  : outcome (analysis opening_patterns) :=
  if spaces_data self is [] then Ok NoSpaceData else
  obind (status_data (spaces_data self)) (λ status_data,
  (* Analyze opening patterns *)
  let open_spaces :=
    List.filter (λ s, if status_open s is Some true then true else false)
      status_data in
  let closed_spaces :=
    List.filter (λ s, if status_open s is Some false then true else false)
      status_data in
  (* Analyze last change times *)
  let recent_changes := List.filter changed_recently status_data in
  Ok (Figures {|
    total_with_status := length status_data;
    open_count := length open_spaces;
    closed_count := length closed_spaces;
    recent_changes := length recent_changes;
    open_spaces := status_name <$> open_spaces;
    status_details := status_data
  |})).

(** *** analyze_contact_methods *)

Record contact_analysis : Type := ContactAnalysis {
  spaces_with_contact : nat;
  contact_methods : gmap string nat;
  contact_percentages : gmap string number
}.

(** The six tests of the loop, for the contact of one space. *)
Definition count_contact (contact : SpaceContact.t)
    (contact_methods : gmap string nat) : gmap string nat :=
  let contact_methods :=
    if truthy_attr JStr (SpaceContact.email contact)
    then increment "email" contact_methods else contact_methods in
  let contact_methods :=
    if truthy_attr JStr (SpaceContact.irc contact)
    then increment "irc" contact_methods else contact_methods in
  let contact_methods :=
    if truthy_attr JStr (SpaceContact.twitter contact)
    then increment "twitter" contact_methods else contact_methods in
  let contact_methods :=
    if truthy_attr JStr (SpaceContact.mastodon contact)
    then increment "mastodon" contact_methods else contact_methods in
  let contact_methods :=
    if truthy_attr JStr (SpaceContact.facebook contact)
    then increment "facebook" contact_methods else contact_methods in
  if truthy_attr JStr (SpaceContact.phone contact)
  then increment "phone" contact_methods else contact_methods.

(** The loop over the spaces, on [spaces_with_contact] and
    [contact_methods]. *)
Definition count_contacts (spaces : list SpaceStatus.t)
  : nat * gmap string nat :=
  foldl (λ acc space,
           match SpaceStatus.contact space with
           | Some contact => (S acc.1, count_contact contact acc.2)
           | None => acc
           end) (0%nat, ∅) spaces.

Definition analyze_contact_methods (self : t) : analysis contact_analysis :=
  if spaces_data self is [] then NoSpaceData else
  let counted := count_contacts (spaces_data self) in
  Figures {|
    spaces_with_contact := counted.1;
    contact_methods := counted.2;
    contact_percentages := (λ count, percentage count counted.1) <$> counted.2
  |}.

(** *** analyze_sensor_data *)




(** [space.sensors] counts as true: it is a dict that is not empty. *)
Definition has_sensors (space : SpaceStatus.t) : bool :=
  match SpaceStatus.sensors space with
  | Some sensors => negb (bool_decide (sensors = ∅))
  | None => false
  end.




(** *** find_spaces_by_criteria *)

(** [value is True] *)
Definition is_True (value : json) : bool :=
  match value with JBool true => true | _ => false end.

(** The body of the inner loop: whether the space passes the criterion
    [key=value].  A criterion that no branch applies to is passed. *)
Definition passes (space : SpaceStatus.t) (key : string) (value : json)
  : bool :=
  match (if String.eqb key "open" then SpaceStatus.state space else None) with
  | Some state => negb (bool_attr_ne (SpaceState.open state) value)
  | None =>
      if String.eqb key "has_location" && is_True value
      then is_set (SpaceStatus.location space)
      else if String.eqb key "has_sensors" && is_True value
      then has_sensors space
      else
        match value with
        | JStr value =>
            if String.eqb key "name_contains"
            then str_in (lower value) (lower (SpaceStatus.space space))
            else true
        | _ => true
        end
  end.

(** [find_spaces_by_criteria], [criteria] being its keyword arguments: the
    spaces that pass every criterion, in their order. *)
Definition find_spaces_by_criteria (self : t) (criteria : gmap string json)
  : list SpaceStatus.t :=
  if spaces_data self is [] then [] else
  List.filter (λ space,
                 forallb (λ item : string * json, passes space item.1 item.2)
                         (map_to_list criteria))
              (spaces_data self).

End Analyses.
End SpaceAnalyzer.


(** ** An instance of the library interface, to run examples

    Numeric strings are read as decimal integers, truth values in the
    spellings of the library, and a URL is a string that starts with
    [http://] or [https://], kept as it is. *)

Definition example_str_as_int (s : string) : option Z :=
  Z.of_int <$> DecimalString.NilZero.int_of_string s.

Definition example_str_as_bool (s : string) : option bool :=
  if bool_decide (s ∈ ["0"; "off"; "f"; "false"; "n"; "no"]%string)
  then Some false
  else if bool_decide (s ∈ ["1"; "on"; "t"; "true"; "y"; "yes"]%string)
  then Some true
  else None.

Definition example_parse_http_url (s : string) : option Url :=
  if String.prefix "http://" s || String.prefix "https://" s
  then Some (MkUrl s) else None.

Definition example_core : PydanticCore.
Proof.
  refine {|
    str_as_int := example_str_as_int;
    str_as_float := λ s, example_str_as_int s ≫= float_of_int;
    str_as_bool := example_str_as_bool;
    bool_as_float := λ b, Some (float_const (if b then 1 else 0));
    parse_http_url := example_parse_http_url;
    parse_http_url_str := _
  |}.
  intros s u. unfold example_parse_http_url.
  destruct (_ || _) eqn:E; intros [= <-]; simpl. by rewrite E.
Defined.

(** * Examples

    The documents of the scenarios, run with [example_core]. *)

(** [{"space": "Metalab", "state": {"lastchange": -5}}] *)
Definition metalab : gmap string json :=
  {[ "space" := JStr "Metalab";
     "state" := JDict {[ "lastchange" := JInt (-5) ]} ]}.

(** [{"space": "Metalab", "state": {"lastchange": -0.5}}] *)
Definition metalab_half : gmap string json :=
  {[ "space" := JStr "Metalab";
     "state" := JDict {[ "lastchange" := JFloat (float_lit (-1) (-1)) ]} ]}.

(** [{"space": "Metalab", "state": {"lastchange": -1e999}}]: the number is
    read as minus infinity. *)
Definition metalab_infinity : gmap string json :=
  {[ "space" := JStr "Metalab";
     "state" := JDict {[ "lastchange" := JFloat (S754_infinity true) ]} ]}.

(** [{"space": "Foo", "sensors": {"temperature": [null, {"value": 21.5}]}}] *)
Definition foo_sensors : gmap string json :=
  {[ "temperature" := JList [JNull;
                             JDict {[ "value" := JFloat (float_lit 43 (-1)) ]}] ]}.

Definition foo : gmap string json :=
  {[ "space" := JStr "Foo"; "sensors" := JDict foo_sensors ]}.


(** [{"space": "S", "api": "0.13"}], and the same with an empty [api] *)
Definition legacy : gmap string json :=
  {[ "space" := JStr "S"; "api" := JStr "0.13" ]}.

Definition legacy_empty : gmap string json :=
  {[ "space" := JStr "S"; "api" := JStr "" ]}.


(** [{"space": "X", "api": "0.13", "api_compatibility": []}] *)
Definition both_versions : gmap string json :=
  {[ "space" := JStr "X"; "api" := JStr "0.13";
     "api_compatibility" := JList [] ]}.

(** A document with many fields. *)
Definition full_document : gmap string json :=
  {[ "space" := JStr "Metalab";
     "api" := JStr "0.13";
     "url" := JStr "https://metalab.at/";
     "location" := JDict {[ "lat" := JFloat (float_lit 193 (-2));
                            "lon" := JInt 16;
                            "address" := JStr "Rathausstrasse 6" ]};
     "state" := JDict {[ "open" := JBool true;
                         "lastchange" := JFloat (float_lit 3400000001 (-1)) ]};
     "contact" := JDict {[ "email" := JStr "core@metalab.at"; "irc" := JNull ]};
     "projects" := JList [JStr "https://metalab.at/wiki/";
                          JDict {[ "url" := JStr "https://metalab.at/p" ]}];
     "spacefed" := JDict {[ "spacenet" := JBool false ]};
     "cache" := JDict {[ "schedule" := JStr "m.02" ]};
     "sensors" := JDict foo_sensors ]}.

(** Directories: one of two URLs, one with a value that is no URL. *)
Definition directory : gmap string json :=
  {[ "Metalab" := JStr "https://metalab.at/status.json";
     "Foo" := JStr "http://foo.example/spaceapi" ]}.

Definition broken_directory : gmap string json :=
  {[ "Metalab" := JStr "https://metalab.at/status.json";
     "Foo" := JStr "not a url" ]}.

(** Five endpoints: two answer 503 until the retries are used up, three
    answer with a document. *)
Definition five_urls : list string :=
  ["https://a.example/"; "https://b.example/"; "https://c.example/";
   "https://d.example/"; "https://e.example/"]%string.

Definition five_endpoints (url : string) : reply :=
  if bool_decide (url ∈ ["https://b.example/"; "https://d.example/"]%string)
  then RequestFailed (RetryError 503)
  else if bool_decide (url = "https://a.example/"%string)
  then JsonBody (JDict metalab)
  else if bool_decide (url = "https://c.example/"%string)
  then JsonBody (JDict foo)
  else JsonBody (JDict legacy).

(** [str.lower] on the letters A to Z, for the examples. *)
Definition example_lower (s : string) : string :=
  string_of_list_ascii
    ((λ c, let n := Ascii.nat_of_ascii c in
           if (65 <=? n)%nat && (n <=? 90)%nat
           then Ascii.ascii_of_nat (n + 32) else c)
     <$> list_ascii_of_string s).

(** [{"space": "Royal Observatory", "location": {"lat": 51.5, "lon": 0.0},
    "state": {"open": false, "lastchange": 0}}] *)
Definition greenwich : gmap string json :=
  {[ "space" := JStr "Royal Observatory";
     "location" := JDict {[ "lat" := JFloat (float_lit 103 (-1));
                            "lon" := JFloat (S754_zero false) ]};
     "state" := JDict {[ "open" := JBool false; "lastchange" := JInt 0 ]} ]}.

(** [{"space": "S", "state": {"lastchange": "1700000000"}}] *)
Definition string_lastchange : gmap string json :=
  {[ "space" := JStr "S";
     "state" := JDict {[ "lastchange" := JStr "1700000000" ]} ]}.

(** [{"space": "S", "sensors": [{"value": 21.5}]}] *)
Definition list_of_sensors : gmap string json :=
  {[ "space" := JStr "S";
     "sensors" := JList [JDict {[ "value" := JFloat (float_lit 43 (-1)) ]}] ]}.

(** The record of a document, for the examples. *)
Definition record_of (values : gmap string json) : option SpaceStatus.t :=
  match SpaceStatus.init (core := example_core) values with
  | Ok s => Some s
  | _ => None
  end.

(** An analyzer with the records of four documents, one of them with
    sensors, and one with three records without sensors. *)
Definition example_analyzer : SpaceAnalyzer.t :=
  SpaceAnalyzer.load_spaces SpaceAnalyzer.init
    (omap record_of [full_document; greenwich; metalab; legacy]).


(** The directory endpoint of the examples: it answers with [directory]. *)
Definition example_directory_url : string := "https://directory.spaceapi.io/".

Definition directory_endpoint (url : string) : reply :=
  if String.eqb url example_directory_url
  then JsonBody (JDict directory)
  else RequestFailed ConnectionError.

(** * The vocabulary of the properties *)

(** A validation that did not produce a value: its report has the line [l],
    unless an exception took the place of the report. *)
Definition failed_with {A} (l : line_error) (r : outcome A) : Prop :=
  match r with
  | Ok _ => False
  | Invalid errors => l ∈ errors
  | Raised _ => True
  end.

(** [stable validator dump]: what the validator made of some value is
    validated to itself when it is serialised. *)
Definition stable {A} (validator : json → outcome A) (dump : A → json) : Prop :=
  ∀ v a, validator v = Ok a → validator (dump a) = Ok a.

(** [lossless validator dump]: the serialised value is the validated
    object itself. *)
Definition lossless {A} (validator : json → outcome A) (dump : A → json)
  : Prop :=
  ∀ v a, validator v = Ok a → dump a = v.

(** What [validate_sensors] keeps of one category: nothing for [None] and
    for a category left without readings, else the cleaned readings. *)
Definition clean_category (sensor_type : string) (sensors : json)
  : option json :=
  match sensors with
  | JNull => None
  | _ =>
      match SpaceStatus.iterate sensors with
      | Ok l =>
          let cleaned := omap (SpaceStatus.clean_sensor sensor_type) l in
          if truthy (JList cleaned) then Some (JList cleaned) else None
      | _ => None
      end
  end.

(** The values a category may have without an exception. *)
Definition iterable (sensors : json) : Prop :=
  sensors = JNull ∨ ∃ l, SpaceStatus.iterate sensors = Ok l.


Section FieldChecks.
Context `{core : PydanticCore}.

(** The fields of [SpaceStatus] that have a default, each with the test
    "the raw value passes the validation of the field". *)
Definition optional_field_checks : list (string * (json → bool)) := [
  ("api_compatibility", λ v, is_ok (optional (list_validator str_validator) v));
  ("api", λ v, is_ok (optional str_validator v));
  ("logo", λ v, is_ok (optional url_validator v));
  ("url", λ v, is_ok (optional url_validator v));
  ("location", λ v, is_ok (optional (model SpaceLocation.of_dict) v));
  ("contact", λ v, is_ok (optional (model SpaceContact.of_dict) v));
  ("issue_report_channels",
     λ v, is_ok (optional (list_validator str_validator) v));
  ("state", λ v, is_ok (optional (model SpaceState.of_dict) v));
  ("events", λ v,
     is_ok (optional (list_validator (model SpaceEvent.of_dict)) v));
  ("projects", λ v,
     is_ok (optional (list_validator SpaceStatus.project_validator) v));
  ("spacefed", λ v, is_ok (optional (dict_validator bool_validator) v));
  ("cam", λ v, is_ok (optional (list_validator url_validator) v));
  ("feed", λ v, is_ok (optional (dict_validator url_validator) v));
  ("radio_show", λ v, is_ok (optional (list_validator url_validator) v));
  ("cache", λ v, is_ok (optional (dict_validator any_validator) v));
  ("projects_url", λ v, is_ok (optional url_validator v));
  ("sensors", λ v, is_ok (SpaceStatus.sensors_validator v));
  ("links", λ v,
     is_ok (optional (list_validator (dict_validator any_validator)) v));
  ("icon", λ v, is_ok (optional (model SpaceStateIcon.of_dict) v));
  ("times", λ v, is_ok (optional (dict_validator any_validator) v))
]%string.

End FieldChecks.

(** The names of the fields of [SpaceStatus]. *)
Definition SpaceStatus_fields : list string := [
  "api_compatibility"; "api"; "space"; "logo"; "url"; "location"; "contact";
  "issue_report_channels"; "state"; "events"; "projects"; "spacefed"; "cam";
  "feed"; "radio_show"; "cache"; "projects_url"; "sensors"; "links"; "icon";
  "times"
]%string.

(** A float that is a number: neither [nan] nor an infinity. *)
Definition is_finite (f : float) : bool :=
  match f with
  | S754_zero _ | S754_finite _ _ _ => true
  | _ => false
  end.

(** A value that does not compare with a number: [v < 0] is a
    [TypeError]. *)
Definition unordered (v : json) : Prop :=
  (∃ s, v = JStr s) ∨ (∃ l, v = JList l) ∨ (∃ d, v = JDict d).

(** The regions that [analyze_geographic_distribution] gives out. *)
Definition region_names : list string := [
  "Arctic"; "North America"; "Europe"; "Asia"; "South America";
  "Africa/Middle East"; "Asia-Pacific"; "Southern Hemisphere"
]%string.

(** The contact methods that [analyze_contact_methods] counts. *)
Definition counted_methods : list (string * (SpaceContact.t → option string)) := [
  ("email", SpaceContact.email); ("irc", SpaceContact.irc);
  ("twitter", SpaceContact.twitter); ("mastodon", SpaceContact.mastodon);
  ("facebook", SpaceContact.facebook); ("phone", SpaceContact.phone)
]%string.

(** The space has a contact with the counted method [method], and its
    value is not empty. *)
Definition uses_method (method : string) (space : SpaceStatus.t) : bool :=
  match SpaceStatus.contact space with
  | Some contact =>
      existsb (λ m : string * (SpaceContact.t → option string),
                 String.eqb method m.1 && truthy_attr JStr (m.2 contact))
              counted_methods
  | None => false
  end.

(** The space has a state without a time of its last change: none, or
    the time 0. *)
Definition has_no_lastchange (space : SpaceStatus.t) : bool :=
  match SpaceStatus.state space with
  | Some state => negb (truthy_attr dump_number (SpaceState.lastchange state))
  | None => false
  end.

(** The space has a location on the equator or on the prime meridian: a
    latitude or a longitude that is 0. *)
Definition on_zero_line (space : SpaceStatus.t) : bool :=
  match SpaceStatus.location space with
  | Some location =>
      negb (truthy (dump_option JFloat (SpaceLocation.lat location)))
      && is_set (SpaceLocation.lat location)
      || negb (truthy (dump_option JFloat (SpaceLocation.lon location)))
         && is_set (SpaceLocation.lon location)
  | None => false
  end.

(** A count as a [defaultdict(int)] holds it: no entry for what was never
    counted. *)
Definition counted (n : nat) : option nat :=
  if n is O then None else Some n.


(** * Properties *)

(** ** Outcomes *)

Lemma omap_ok_Ok {A B} (f : A → B) (r : outcome A) (b : B) :
  omap_ok f r = Ok b ↔ ∃ a, r = Ok a ∧ b = f a.
Proof.
  destruct r; simpl; (split; [intros [= <-] | intros (? & [= <-] & ->)]); eauto.
Qed.

Lemma obind_Ok {A B} (r : outcome A) (k : A → outcome B) (b : B) :
  obind r k = Ok b ↔ ∃ a, r = Ok a ∧ k a = Ok b.
Proof.
  destruct r; simpl; (split; [intros E | intros (? & [= <-] & E)]);
    eauto; discriminate.
Qed.

Lemma ap_Ok {A B} (rf : outcome (A → B)) (ra : outcome A) (b : B) :
  rf <*> ra = Ok b ↔ ∃ f a, rf = Ok f ∧ ra = Ok a ∧ b = f a.
Proof.
  destruct rf, ra; simpl;
    (split; [intros [= <-] | intros (? & ? & [= <-] & [= <-] & ->)]); eauto.
Qed.

Arguments ap : simpl never.
Arguments at_loc : simpl never.
Arguments float_const : simpl never.

Lemma ap_is_ok {A B} (rf : outcome (A → B)) (ra : outcome A) :
  is_ok (rf <*> ra) = is_ok rf && is_ok ra.
Proof. by destruct rf, ra. Qed.

Lemma at_loc_Ok {A} (i : loc_item) (r : outcome A) (a : A) :
  at_loc i r = Ok a ↔ r = Ok a.
Proof. by destruct r. Qed.

Lemma at_loc_is_ok {A} (i : loc_item) (r : outcome A) :
  is_ok (at_loc i r) = is_ok r.
Proof. by destruct r. Qed.

Lemma failed_with_ap_l {A B} l (rf : outcome (A → B)) (ra : outcome A) :
  failed_with l rf → failed_with l (rf <*> ra).
Proof.
  destruct rf, ra; unfold ap; simpl; try done. intros ?. apply elem_of_app. by left.
Qed.

Lemma failed_with_ap_r {A B} l (rf : outcome (A → B)) (ra : outcome A) :
  failed_with l ra → failed_with l (rf <*> ra).
Proof.
  destruct rf, ra; unfold ap; simpl; try done. intros ?. apply elem_of_app. by right.
Qed.

(** ** Fields *)

Section FieldLemmas.
Context {A : Type}.
Implicit Types (validator : json → outcome A) (data : gmap string json).

Lemma field_Ok name validator dflt data a :
  field name validator dflt data = Ok a ↔
  match data !! name with
  | Some v => validator v = Ok a
  | None => a = dflt
  end.
Proof.
  unfold field. destruct (data !! name).
  - apply at_loc_Ok.
  - split; congruence.
Qed.

Lemma required_Ok name validator data a :
  required name validator data = Ok a ↔
  ∃ v, data !! name = Some v ∧ validator v = Ok a.
Proof.
  unfold required. destruct (data !! name).
  - rewrite at_loc_Ok. naive_solver.
  - naive_solver.
Qed.

Lemma field_is_ok name validator dflt data :
  is_ok (field name validator dflt data)
  = from_option (λ v, is_ok (validator v)) true (data !! name).
Proof. unfold field. destruct (data !! name); simpl; by rewrite ?at_loc_is_ok. Qed.

Lemma required_is_ok name validator data :
  is_ok (required name validator data)
  = from_option (λ v, is_ok (validator v)) false (data !! name).
Proof.
  unfold required. destruct (data !! name); simpl; by rewrite ?at_loc_is_ok.
Qed.

End FieldLemmas.

Lemma optional_Ok {A} (validator : json → outcome A) (v : json) (o : option A) :
  optional validator v = Ok o ↔
  (v = JNull ∧ o = None) ∨ (v ≠ JNull ∧ ∃ a, validator v = Ok a ∧ o = Some a).
Proof.
  destruct v; simpl; rewrite ?omap_ok_Ok; naive_solver.
Qed.

(** ** Lists and dicts *)

Section Containers.
Context {A : Type}.
Implicit Types (validator : json → outcome A).

Lemma list_items_Ok validator i l l' :
  list_items validator i l = Ok l' ↔ Forall2 (λ v a, validator v = Ok a) l l'.
Proof.
  revert i l'. induction l as [|x l IH]; intros i l'; simpl.
  - split.
    + intros [= <-]. constructor.
    + intros ->%Forall2_nil_inv_l. done.
  - rewrite ap_Ok. split.
    + intros (f & t & (g & a & [= <-] & Ha%at_loc_Ok & ->)%ap_Ok & Ht%IH & ->).
      by constructor.
    + intros (a & t & Ha & Ht & ->)%Forall2_cons_inv_l.
      exists (cons a), t. split_and!; [|by apply IH|done].
      apply ap_Ok. exists cons, a. by rewrite at_loc_Ok.
Qed.

Lemma list_validator_Ok validator v l' :
  list_validator validator v = Ok l' ↔
  ∃ l, v = JList l ∧ Forall2 (λ v a, validator v = Ok a) l l'.
Proof.
  destruct v; simpl; try (split; [discriminate|naive_solver]).
  rewrite list_items_Ok. naive_solver.
Qed.

Lemma dict_items_Ok validator (items : list (string * json)) items' :
  dict_items validator items = Ok items' ↔
  Forall2 (λ kv ka, kv.1 = ka.1 ∧ validator kv.2 = Ok ka.2) items items'.
Proof.
  revert items'. induction items as [|[k x] l IH]; intros l'; simpl.
  - split.
    + intros [= <-]. constructor.
    + intros ->%Forall2_nil_inv_l. done.
  - rewrite ap_Ok. split.
    + intros (f & t & (g & a & [= <-] & Ha%at_loc_Ok & ->)%ap_Ok & Ht%IH & ->).
      by constructor.
    + intros ([k' a] & t & [Hk Ha] & Ht & ->)%Forall2_cons_inv_l.
      simpl in *. subst k'.
      exists (λ rest, (k, a) :: rest), t. split_and!; [|by apply IH|done].
      apply ap_Ok. exists (λ a rest, (k, a) :: rest), a. by rewrite at_loc_Ok.
Qed.

Lemma dict_items_keys validator (items : list (string * json)) items' :
  Forall2 (λ kv ka, kv.1 = ka.1 ∧ validator kv.2 = Ok (ka.2 : A)) items items' →
  items'.*1 = items.*1.
Proof.
  induction 1 as [|[k x] [k' a] l l' [Hk _] _ IH]; [done|].
  csimpl in *. by rewrite IH, Hk.
Qed.

(** A dict passes when each of its values does, and the result has the
    validated value under each key. *)
Lemma dict_validator_Ok validator v (m : gmap string A) :
  dict_validator validator v = Ok m ↔
  ∃ d, v = JDict d ∧
    ∀ k, match d !! k, m !! k with
         | Some x, Some a => validator x = Ok a
         | None, None => True
         | _, _ => False
         end.
Proof.
  destruct v; simpl; try (split; [discriminate|naive_solver]).
  rewrite omap_ok_Ok. setoid_rewrite dict_items_Ok. split.
  - intros (l' & HF & ->). exists d. split; [done|]. intros k.
    assert (Hfst : l'.*1 = (map_to_list d).*1) by by eapply dict_items_keys.
    assert (Hnd : NoDup l'.*1).
    { rewrite Hfst. apply NoDup_fst_map_to_list. }
    destruct (d !! k) as [x|] eqn:Hd.
    + apply elem_of_map_to_list in Hd.
      apply list_elem_of_lookup in Hd as [i Hi].
      destruct (Forall2_lookup_l _ _ _ _ _ HF Hi) as ([k' a] & Hi' & Hk & Ha).
      simpl in *. subst k'.
      assert (Hm : (list_to_map l' : gmap string A) !! k = Some a).
      { apply elem_of_list_to_map_1; [done|].
        apply list_elem_of_lookup. eauto. }
      by rewrite Hm.
    + assert (Hm : (list_to_map l' : gmap string A) !! k = None).
      { apply not_elem_of_list_to_map_1. rewrite Hfst.
        intros ([k' x] & -> & Hx%elem_of_map_to_list)%list_elem_of_fmap.
        simpl in *. congruence. }
      by rewrite Hm.
  - intros (d' & [= <-] & Hk).
    assert (Hl : ∀ l : list (string * json),
      (∀ k x, (k, x) ∈ l → d !! k = Some x) →
      ∃ l', Forall2 (λ kv ka, kv.1 = ka.1 ∧ validator kv.2 = Ok ka.2) l l' ∧
            ∀ k a, (k, a) ∈ l' → m !! k = Some a).
    { induction l as [|[k x] l IH]; intros Hin.
      - exists []. split; [constructor|]. intros ?? ?%elem_of_nil. done.
      - destruct IH as (l' & HF & Hl').
        { intros k' x' ?. apply Hin. by right. }
        specialize (Hk k). rewrite (Hin k x) in Hk by left.
        destruct (m !! k) as [a|] eqn:Hm; [|done].
        exists ((k, a) :: l'). split; [by constructor|].
        intros k' a' [[= -> ->]|?]%elem_of_cons; eauto. }
    destruct (Hl (map_to_list d)) as (l' & HF & Hl').
    { intros k x. apply elem_of_map_to_list. }
    exists l'. split; [done|].
    assert (Hfst : l'.*1 = (map_to_list d).*1) by by eapply dict_items_keys.
    apply map_eq. intros k. destruct (m !! k) as [a|] eqn:Hm; symmetry.
    + apply elem_of_list_to_map_1.
      { rewrite Hfst. apply NoDup_fst_map_to_list. }
      specialize (Hk k). rewrite Hm in Hk.
      destruct (d !! k) as [x|] eqn:Hd; [|done].
      apply elem_of_map_to_list, list_elem_of_lookup in Hd as [i Hi].
      destruct (Forall2_lookup_l _ _ _ _ _ HF Hi) as ([k' a'] & Hi' & Hk' & Ha).
      simpl in *. subst k'.
      assert (Hin : (k, a') ∈ l') by (apply list_elem_of_lookup; eauto).
      apply Hl' in Hin as Hm'. by simplify_eq.
    + apply not_elem_of_list_to_map_1.
      intros ([k' a] & -> & Hin)%list_elem_of_fmap.
      apply Hl' in Hin. simpl in *. congruence.
Qed.

End Containers.

(** ** Serialising a record and validating it again *)

Lemma field_stable {A} name (validator : json → outcome A) dump dflt
    (data fields : gmap string json) (a : A) :
  stable validator dump →
  validator (dump dflt) = Ok dflt →
  fields !! name = Some (dump a) →
  field name validator dflt data = Ok a →
  field name validator dflt fields = Ok a.
Proof.
  intros Hst Hd Hf. rewrite !field_Ok, Hf.
  destruct (data !! name); [apply Hst|intros ->; done].
Qed.

Lemma required_stable {A} name (validator : json → outcome A) dump
    (data fields : gmap string json) (a : A) :
  stable validator dump →
  fields !! name = Some (dump a) →
  required name validator data = Ok a →
  required name validator fields = Ok a.
Proof.
  intros Hst Hf. rewrite !required_Ok, Hf.
  intros (v & _ & Hv). eexists. split; [done|]. by eapply Hst.
Qed.

Lemma stable_str : stable str_validator JStr.
Proof. intros v a _. done. Qed.

Lemma stable_optional {A} (validator : json → outcome A) dump :
  stable validator dump →
  (∀ a, is_none (dump a) = false) →
  stable (optional validator) (dump_option dump).
Proof.
  intros Hst Hn v [a|]; [|done].
  intros [[_ [=]]|[_ (a' & Ha & [= <-])]]%optional_Ok. simpl.
  apply Hst in Ha. specialize (Hn a).
  destruct (dump a); try done; simpl; by rewrite Ha.
Qed.

Lemma stable_list {A} (validator : json → outcome A) dump :
  stable validator dump →
  stable (list_validator validator) (dump_list dump).
Proof.
  intros Hst v l' (l & -> & HF)%list_validator_Ok.
  apply list_validator_Ok. eexists. split; [done|].
  induction HF; csimpl; constructor; eauto.
Qed.

Lemma stable_dict {A} (validator : json → outcome A) dump :
  stable validator dump →
  stable (dict_validator validator) (dump_dict dump).
Proof.
  intros Hst v m (d & -> & Hk)%dict_validator_Ok.
  apply dict_validator_Ok. eexists. split; [done|]. intros k.
  specialize (Hk k). rewrite lookup_fmap.
  destruct (m !! k), (d !! k); simpl; eauto; done.
Qed.

Lemma dict_any (d : gmap string json) :
  dict_validator any_validator (JDict d) = Ok d.
Proof.
  apply dict_validator_Ok. eexists. split; [done|]. intros k.
  by destruct (d !! k).
Qed.

Lemma stable_dict_any : stable (dict_validator any_validator) JDict.
Proof.
  intros v m _. apply dict_any.
Qed.

Section StableCore.
Context `{core : PydanticCore}.

Lemma stable_int : stable int_validator JInt.
Proof. intros v a _. done. Qed.

Lemma stable_bool : stable bool_validator JBool.
Proof. intros v a _. done. Qed.

Lemma stable_url : stable url_validator dump_url.
Proof.
  intros [] u; try done. simpl.
  destruct (parse_http_url s) eqn:E; [|done]. intros [= ->].
  by rewrite (parse_http_url_str _ _ E).
Qed.

Lemma bounded_float_Ok lo hi v f :
  bounded_float lo hi v = Ok f ↔
  float_validator v = Ok f ∧
  SFleb (float_const lo) f = true ∧ SFleb f (float_const hi) = true.
Proof.
  unfold bounded_float. rewrite obind_Ok. split.
  - intros (f' & Hf & H).
    destruct (SFleb (float_const lo) f') eqn:E1; [|done].
    destruct (SFleb f' (float_const hi)) eqn:E2; [|done].
    injection H as <-. done.
  - intros (Hf & E1 & E2). exists f. by rewrite E1, E2.
Qed.

Lemma stable_bounded_float lo hi : stable (bounded_float lo hi) JFloat.
Proof.
  intros v f (_ & E1 & E2)%bounded_float_Ok. by apply bounded_float_Ok.
Qed.

End StableCore.

(** Tactics for the models: a record is built exactly when every field is
    validated. *)
Ltac fields_of H :=
  repeat (apply ap_Ok in H as (? & ? & H & ? & ?));
  injection H as <-; subst; simpl.

Create HintDb stable discriminated.

#[global] Hint Resolve stable_str stable_int stable_bool stable_url
  stable_bounded_float stable_optional stable_list stable_dict
  stable_dict_any : stable.
#[global] Hint Extern 0 (is_none _ = false) =>
  first [ reflexivity
        | match goal with |- is_none (_ ?a) = false => destruct a end;
          reflexivity ] : stable.

(** One field of a serialised record: it is stored under its name, and its
    validator is stable. *)
Ltac stable_field :=
  lazymatch goal with
  | |- field _ _ _ _ = _ => eapply field_stable
  | |- required _ _ _ = _ => eapply required_stable
  end;
  [ solve [eauto 10 with stable nocore] | try reflexivity .. | eassumption ].

(** A model whose fields are stable is stable: every field of the
    serialised record is validated to what the record holds. *)
Ltac stable_fields :=
  repeat match goal with
  | H : field ?n ?V ?d ?data = Ok ?a |- context [field ?n ?V ?d ?fields] =>
      let E := fresh "E" in
      assert (E : field n V d fields = Ok a) by stable_field;
      rewrite E; clear E H
  | H : required ?n ?V ?data = Ok ?a |- context [required ?n ?V ?fields] =>
      let E := fresh "E" in
      assert (E : required n V fields = Ok a) by stable_field;
      rewrite E; clear E H
  end;
  lazymatch goal with
  | |- context [field _ _ _ _] => fail "a field is left"
  | |- context [required _ _ _] => fail "a field is left"
  | |- _ => reflexivity
  end.

Lemma SpaceContact_stable :
  stable (model SpaceContact.of_dict) SpaceContact.model_dump.
Proof.
  intros [] c H; try done. simpl in *.
  unfold SpaceContact.of_dict in *. fields_of H. stable_fields.
Qed.

Section StableModels.
Context `{core : PydanticCore}.

Lemma SpaceLocation_stable :
  stable (model SpaceLocation.of_dict) SpaceLocation.model_dump.
Proof.
  intros [] c H; try done. simpl in *.
  unfold SpaceLocation.of_dict in *. fields_of H. stable_fields.
Qed.

Lemma SpaceStateIcon_stable :
  stable (model SpaceStateIcon.of_dict) SpaceStateIcon.model_dump.
Proof.
  intros [] c H; try done. simpl in *.
  unfold SpaceStateIcon.of_dict in *. fields_of H. stable_fields.
Qed.

(** The timestamp that [lastchange_validator] lets through is an integer
    that is not negative. *)
Lemma lastchange_validator_Ok v a :
  SpaceState.lastchange_validator v = Ok a →
  a = None ∨ ∃ n, a = Some (NInt n) ∧ (n <? 0) = false.
Proof.
  unfold SpaceState.lastchange_validator.
  intros (v' & Hv & Ha)%obind_Ok.
  assert (Hv' : v' = JNull ∨ (∃ n, v' = JInt n ∧ (n <? 0) = false)
                ∨ ∃ b, v' = JBool b).
  { destruct v as [|b|n|f| | |]; simpl in Hv; try discriminate.
    - injection Hv as <-. by left.
    - injection Hv as <-. eauto.
    - destruct (n <? 0) eqn:E; injection Hv as <-; eauto.
    - destruct (int_of_float f) as [[e|]|n]; try discriminate. simpl in Hv.
      destruct (n <? 0) eqn:E; injection Hv as <-; eauto. }
  destruct Hv' as [->|[(n & -> & Hn)|[b ->]]]; simpl in Ha.
  - injection Ha as <-. by left.
  - injection Ha as <-. eauto.
  - injection Ha as <-. right. eexists. split; [done|]. by destruct b.
Qed.

Lemma stable_lastchange :
  stable SpaceState.lastchange_validator (dump_option dump_number).
Proof.
  intros v a [->|(n & -> & Hn)]%lastchange_validator_Ok; [done|].
  unfold SpaceState.lastchange_validator. simpl. by rewrite Hn.
Qed.

Hint Resolve SpaceStateIcon_stable stable_lastchange : stable.

Lemma SpaceState_stable :
  stable (model SpaceState.of_dict) SpaceState.model_dump.
Proof.
  intros [] c H; try done. simpl in *.
  unfold SpaceState.of_dict in *. fields_of H. stable_fields.
Qed.

Lemma stable_extra : stable SpaceEvent.extra_validator dump_extra.
Proof. intros [] a; try done; by intros [= <-]. Qed.

Hint Resolve stable_extra : stable.

Lemma SpaceEvent_stable :
  stable (model SpaceEvent.of_dict) SpaceEvent.model_dump.
Proof.
  intros [] c H; try done. simpl in *.
  unfold SpaceEvent.of_dict in *. fields_of H. stable_fields.
Qed.

Lemma SpaceProject_stable :
  stable (model SpaceProject.of_dict) SpaceProject.model_dump.
Proof.
  intros [] c H; try done. simpl in *.
  unfold SpaceProject.of_dict in *. fields_of H. stable_fields.
Qed.

Lemma stable_project : stable SpaceStatus.project_validator dump_project.
Proof.
  intros v a H.
  assert (Ha : (∃ u, a = ProjectUrl u ∧ url_validator v = Ok u)
               ∨ ∃ p, a = Project p ∧ model SpaceProject.of_dict v = Ok p).
  { destruct v; try done; simpl in H; apply omap_ok_Ok in H as (x & ? & ->);
      eauto. }
  destruct Ha as [(u & -> & Hu)|(p & -> & Hp)].
  - apply stable_url in Hu. unfold dump_url in *. simpl in *. by rewrite Hu.
  - apply SpaceProject_stable in Hp. simpl in *. by rewrite Hp.
Qed.

End StableModels.

(** ** The sensors validator *)

Lemma iterate_cases v :
  (∃ l, SpaceStatus.iterate v = Ok l) ∨ SpaceStatus.iterate v = Raised TypeError.
Proof. destruct v; simpl; eauto. Qed.

Lemma clean_sensors_item_iterable sensor_type sensors cleaned :
  iterable sensors →
  SpaceStatus.clean_sensors_item sensor_type sensors cleaned
  = Ok (match clean_category sensor_type sensors with
        | Some x => <[sensor_type := x]> cleaned
        | None => cleaned
        end).
Proof.
  intros [->|[l Hl]]; [done|].
  unfold SpaceStatus.clean_sensors_item, clean_category.
  destruct sensors; try done; rewrite Hl; simpl;
    by destruct (omap _ l).
Qed.

Lemma clean_sensors_item_not_iterable sensor_type sensors cleaned :
  ¬ iterable sensors →
  SpaceStatus.clean_sensors_item sensor_type sensors cleaned = Raised TypeError.
Proof.
  intros Hn. unfold SpaceStatus.clean_sensors_item.
  destruct (iterate_cases sensors) as [[l Hl]|Hr].
  - destruct Hn. right. eauto.
  - destruct sensors; try done; by destruct Hn; left.
Qed.

(** The loop of [validate_sensors] over the items of a dict. *)
Lemma validate_sensors_loop (d : gmap string json) :
  let loop := map_fold (λ sensor_type sensors acc,
                obind acc (SpaceStatus.clean_sensors_item sensor_type sensors))
              (Ok ∅) d in
  (map_Forall (λ _, iterable) d ∧ loop = Ok (map_imap clean_category d))
  ∨ (¬ map_Forall (λ _, iterable) d ∧ loop = Raised TypeError).
Proof.
  simpl. apply (map_fold_weak_ind (λ r m,
    (map_Forall (λ _, iterable) m ∧ r = Ok (map_imap clean_category m))
    ∨ (¬ map_Forall (λ _, iterable) m ∧ r = Raised TypeError))).
  - left. split; [apply map_Forall_empty|]. by rewrite map_imap_empty.
  - intros i x m r Hi [[HF ->]|[HF ->]]; simpl.
    + destruct (iterate_cases x) as [[l Hl]|Hr].
      * left. split.
        { apply map_Forall_insert; [done|]. split; [|done]. right. eauto. }
        rewrite clean_sensors_item_iterable by (right; eauto).
        rewrite map_imap_insert. f_equal.
        destruct (clean_category i x); [done|].
        rewrite delete_id; [done|]. by rewrite map_lookup_imap, Hi.
      * assert (Hx : x = JNull ∨ x ≠ JNull) by (destruct x; eauto).
        destruct Hx as [->|Hx].
        { left. split.
          { apply map_Forall_insert; [done|]. split; [by left|done]. }
          simpl. rewrite map_imap_insert. simpl. f_equal.
          rewrite delete_id; [done|]. by rewrite map_lookup_imap, Hi. }
        right. split.
        { intros [[?|[l Hl]] _]%map_Forall_insert; [done| |done]. congruence. }
        apply clean_sensors_item_not_iterable.
        intros [?|[l Hl]]; [done|congruence].
    + right. split; [|done].
      intros [_ ?]%map_Forall_insert; done.
Qed.

(** What [validate_sensors] returns for a dict. *)
Lemma validate_sensors_dict (d : gmap string json) (v' : json) :
  SpaceStatus.validate_sensors (JDict d) = Ok v' →
  let cleaned := map_imap clean_category d in
  map_Forall (λ _, iterable) d ∧
  v' = if truthy (JDict cleaned) then JDict cleaned else JNull.
Proof.
  simpl. destruct (validate_sensors_loop d) as [[HF ->]|[_ ->]]; [|done].
  simpl. split; [done|]. by destruct (negb _); injection H as <-.
Qed.

Lemma validate_sensors_dict_iterable (d : gmap string json) :
  map_Forall (λ _, iterable) d →
  let cleaned := map_imap clean_category d in
  SpaceStatus.validate_sensors (JDict d)
  = Ok (if truthy (JDict cleaned) then JDict cleaned else JNull).
Proof.
  simpl. destruct (validate_sensors_loop d) as [[HF ->]|[HF _]]; [|done].
  intros _. simpl. by destruct (negb _).
Qed.

(** A cleaned reading is left as it is by a second cleaning. *)
Lemma cleaned_sensor_fixed sensor_type (sensor : gmap string json) :
  let c := SpaceStatus.cleaned_sensor sensor_type sensor in
  SpaceStatus.cleaned_sensor sensor_type c = c.
Proof.
  unfold SpaceStatus.cleaned_sensor. cbv zeta.
  set (c := filter (λ kv, is_none kv.2 = false) sensor).
  assert (Hc : filter (λ kv : string * json, is_none kv.2 = false) c = c).
  { apply map_eq. intros k. apply option_eq. intros x.
    unfold c. rewrite !map_lookup_filter_Some. naive_solver. }
  destruct (dict_contains "name" c) eqn:E.
  - by rewrite Hc, E.
  - set (c' := <["name" := _]> c).
    assert (Hc' : filter (λ kv : string * json, is_none kv.2 = false) c' = c').
    { apply map_eq. intros k. apply option_eq. intros x.
      rewrite map_lookup_filter_Some. split; [naive_solver|].
      intros Hx. split; [done|]. simpl. unfold c' in Hx.
      apply lookup_insert_Some in Hx as [[_ <-]|[_ Hx]]; [done|].
      rewrite <- Hc in Hx. by apply map_lookup_filter_Some in Hx as [_ ?]. }
    rewrite Hc'.
    assert (Hn : dict_contains "name" c' = true).
    { unfold dict_contains, c'. apply bool_decide_eq_true.
      rewrite lookup_insert_eq. eauto. }
    by rewrite Hn.
Qed.

Lemma clean_sensor_fixed sensor_type sensor cleaned :
  SpaceStatus.clean_sensor sensor_type sensor = Some cleaned →
  SpaceStatus.clean_sensor sensor_type cleaned = Some cleaned.
Proof.
  destruct sensor as [| | | | | |d]; simpl; try (by intros [= <-]).
  intros [= <-]. simpl. by rewrite cleaned_sensor_fixed.
Qed.

Lemma clean_sensor_list_fixed sensor_type (l : list json) :
  omap (SpaceStatus.clean_sensor sensor_type)
    (omap (SpaceStatus.clean_sensor sensor_type) l)
  = omap (SpaceStatus.clean_sensor sensor_type) l.
Proof.
  induction l as [|x l IH]; [done|]. csimpl.
  destruct (SpaceStatus.clean_sensor sensor_type x) as [y|] eqn:E; [|done].
  csimpl. by rewrite (clean_sensor_fixed _ _ _ E), IH.
Qed.

Lemma clean_category_fixed sensor_type sensors cleaned :
  clean_category sensor_type sensors = Some cleaned →
  iterable cleaned ∧ clean_category sensor_type cleaned = Some cleaned.
Proof.
  unfold clean_category. intros H.
  assert (∃ l, cleaned = JList (omap (SpaceStatus.clean_sensor sensor_type) l)
               ∧ truthy cleaned = true) as (l & -> & Ht).
  { destruct sensors; try done;
      destruct (SpaceStatus.iterate _) as [items| |]; try done;
      destruct (truthy _) eqn:Ht; try done; injection H as <-; eauto. }
  split; [right; simpl; eauto|].
  simpl SpaceStatus.iterate. cbv beta iota zeta.
  rewrite clean_sensor_list_fixed. by rewrite Ht.
Qed.

(** [validate_sensors] returns what it leaves unchanged. *)
Lemma validate_sensors_fixed v v' :
  SpaceStatus.validate_sensors v = Ok v' →
  SpaceStatus.validate_sensors v' = Ok v'.
Proof.
  destruct v as [| | | | | |d]; try done.
  - by intros [= <-].
  - intros [_ ->]%validate_sensors_dict.
    set (c := map_imap clean_category d).
    destruct (truthy (JDict c)) eqn:Ht; [|done].
    assert (Hc : map_imap clean_category c = c).
    { apply map_eq. intros k. rewrite map_lookup_imap.
      destruct (c !! k) as [x|] eqn:Hk; [|done]. simpl.
      unfold c in Hk. rewrite map_lookup_imap in Hk.
      destruct (d !! k) as [y|]; [|done]. simpl in Hk.
      by apply clean_category_fixed in Hk as [_ ?]. }
    rewrite validate_sensors_dict_iterable.
    + by rewrite Hc, Ht.
    + intros k x Hk. unfold c in Hk. rewrite map_lookup_imap in Hk.
      destruct (d !! k) as [y|]; [|done]. simpl in Hk.
      by apply clean_category_fixed in Hk as [? _].
Qed.

(** ** Validators that lose nothing *)

Lemma lossless_optional {A} (validator : json → outcome A) dump :
  lossless validator dump → lossless (optional validator) (dump_option dump).
Proof.
  intros Hl v o [[-> ->]|[_ (a & Ha & ->)]]%optional_Ok; [done|].
  simpl. by apply Hl.
Qed.

Lemma lossless_list {A} (validator : json → outcome A) dump :
  lossless validator dump →
  lossless (list_validator validator) (dump_list dump).
Proof.
  intros Hl v l' (l & -> & HF)%list_validator_Ok. unfold dump_list. f_equal.
  induction HF as [|x a l l' Ha _ IH]; [done|]. csimpl.
  by rewrite IH, (Hl _ _ Ha).
Qed.

Lemma lossless_dict {A} (validator : json → outcome A) dump :
  lossless validator dump →
  lossless (dict_validator validator) (dump_dict dump).
Proof.
  intros Hl v m (d & -> & Hk)%dict_validator_Ok. unfold dump_dict. f_equal.
  apply map_eq. intros k. specialize (Hk k). rewrite lookup_fmap.
  destruct (m !! k), (d !! k); simpl; try done. f_equal. by apply Hl.
Qed.

Section StableStatus.
Context `{core : PydanticCore}.

Lemma lossless_sensor : lossless SpaceStatus.sensor_validator dump_sensor.
Proof. intros [] a; try done; by intros [= <-]. Qed.

Lemma stable_sensors :
  stable SpaceStatus.sensors_validator
    (dump_option (dump_dict (dump_list dump_sensor))).
Proof.
  intros v a (v' & Hv & Ha)%obind_Ok.
  pose proof Ha as Hd.
  apply (lossless_optional _ _
           (lossless_dict _ _ (lossless_list _ _ lossless_sensor))) in Hd.
  rewrite Hd. unfold SpaceStatus.sensors_validator.
  by rewrite (validate_sensors_fixed _ _ Hv).
Qed.

End StableStatus.

(** ** The root validator *)

Lemma dict_contains_true key (d : gmap string json) :
  dict_contains key d = true ↔ is_Some (d !! key).
Proof. apply bool_decide_eq_true. Qed.

Lemma dict_contains_false key (d : gmap string json) :
  dict_contains key d = false ↔ d !! key = None.
Proof.
  unfold dict_contains. rewrite bool_decide_eq_false.
  by rewrite eq_None_not_Some.
Qed.

(** A document with [api_compatibility]: only an empty or null one next to
    an empty, null or missing [api] is replaced by the default. *)
Lemma handle_api_versions_present (values : gmap string json) v :
  values !! "api_compatibility" = Some v →
  SpaceStatus.handle_api_versions values
  = if negb (truthy v) && negb (truthy (dict_get "api" values))
    then <["api_compatibility" := JList [JStr "14"]]> values
    else values.
Proof.
  intros Hv. unfold SpaceStatus.handle_api_versions.
  assert (dict_contains "api_compatibility" values = true) as ->.
  { apply dict_contains_true. eauto. }
  rewrite andb_false_r. cbv zeta. unfold dict_get at 1. by rewrite Hv.
Qed.

(** A legacy document: [api] only, with a value that counts as true. *)
Lemma handle_api_versions_legacy (values : gmap string json) api_version :
  values !! "api" = Some api_version →
  values !! "api_compatibility" = None →
  truthy api_version = true →
  SpaceStatus.handle_api_versions values
  = <["api_compatibility" := JList [api_version]]> (delete "api" values).
Proof.
  intros Ha Hc Ht. unfold SpaceStatus.handle_api_versions.
  assert (dict_contains "api" values = true) as ->.
  { apply dict_contains_true. eauto. }
  assert (dict_contains "api_compatibility" values = false) as ->.
  { by apply dict_contains_false. }
  unfold dict_get. cbv zeta. simpl. rewrite Ha. simpl. rewrite Ht.
  by rewrite lookup_insert_eq.
Qed.

(** A legacy document whose [api] counts as false (an empty string, null):
    the value is dropped and the default takes its place. *)
Lemma handle_api_versions_legacy_falsy (values : gmap string json) api_version :
  values !! "api" = Some api_version →
  values !! "api_compatibility" = None →
  truthy api_version = false →
  SpaceStatus.handle_api_versions values
  = <["api_compatibility" := JList [JStr "14"]]> (delete "api" values).
Proof.
  intros Ha Hc Ht. unfold SpaceStatus.handle_api_versions.
  assert (dict_contains "api" values = true) as ->.
  { apply dict_contains_true. eauto. }
  assert (dict_contains "api_compatibility" values = false) as ->.
  { by apply dict_contains_false. }
  unfold dict_get. cbv zeta. simpl. rewrite Ha. simpl. rewrite Ht.
  rewrite lookup_delete_ne, Hc by done. by rewrite lookup_delete_eq.
Qed.

(** A document with neither field. *)
Lemma handle_api_versions_neither (values : gmap string json) :
  values !! "api" = None →
  values !! "api_compatibility" = None →
  SpaceStatus.handle_api_versions values
  = <["api_compatibility" := JList [JStr "14"]]> values.
Proof.
  intros Ha Hc. unfold SpaceStatus.handle_api_versions.
  assert (dict_contains "api" values = false) as ->.
  { by apply dict_contains_false. }
  unfold dict_get. cbv zeta. simpl. by rewrite Ha, Hc.
Qed.

(** The root validator touches no other key. *)
Lemma handle_api_versions_other (values : gmap string json) key :
  key ≠ "api" → key ≠ "api_compatibility" →
  SpaceStatus.handle_api_versions values !! key = values !! key.
Proof.
  intros H1 H2. unfold SpaceStatus.handle_api_versions.
  repeat match goal with
  | |- context [if ?b then _ else _] => destruct b
  end; by rewrite ?lookup_insert_ne, ?lookup_delete_ne by done.
Qed.

(** After the root validator one of the two version fields counts as
    true. *)
Lemma handle_api_versions_post (values : gmap string json) :
  let values' := SpaceStatus.handle_api_versions values in
  truthy (dict_get "api_compatibility" values')
  || truthy (dict_get "api" values') = true.
Proof.
  assert (Hgen : ∀ v : gmap string json,
    let v' := if negb (truthy (dict_get "api_compatibility" v))
                 && negb (truthy (dict_get "api" v))
              then <["api_compatibility" := JList [JStr "14"]]> v else v in
    truthy (dict_get "api_compatibility" v') || truthy (dict_get "api" v')
    = true).
  { intros v. cbv zeta.
    destruct (truthy (dict_get "api_compatibility" v)) eqn:E1; simpl.
    - by rewrite E1.
    - destruct (truthy (dict_get "api" v)) eqn:E2; simpl.
      + by rewrite E1, E2.
      + unfold dict_get at 1. by rewrite lookup_insert_eq. }
  apply Hgen.
Qed.

(** ** Serialise, then validate again *)

Section Idempotence.
Context `{core : PydanticCore}.

Hint Resolve SpaceContact_stable SpaceLocation_stable SpaceStateIcon_stable
  SpaceState_stable SpaceEvent_stable stable_project stable_sensors : stable.


Lemma lossless_str : lossless str_validator JStr.
Proof. intros [] a; try done; by intros [= <-]. Qed.

Lemma field_lossless {A} name (validator : json → outcome A) dump dflt
    (data : gmap string json) (a : A) :
  lossless validator dump →
  dump dflt = JNull →
  field name validator dflt data = Ok a →
  dict_get name data = dump a.
Proof.
  intros Hl Hd. rewrite field_Ok. unfold dict_get.
  destruct (data !! name); simpl; [|by intros ->].
  intros H. symmetry. by apply Hl.
Qed.



End Idempotence.

(** ** API versions *)

Section ApiVersions.
Context `{core : PydanticCore}.

Lemma truthy_str (X : string) : X ≠ "" → truthy (JStr X) = true.
Proof.
  intros HX. simpl. apply negb_true_iff. by apply String.eqb_neq.
Qed.

(** The two version fields of a record, read off the dict that the root
    validator returns. *)
Lemma init_version_fields (values : gmap string json) (s : SpaceStatus.t) :
  SpaceStatus.init values = Ok s →
  let data := SpaceStatus.handle_api_versions values in
  field "api_compatibility" (optional (list_validator str_validator)) None data
    = Ok (SpaceStatus.api_compatibility s) ∧
  field "api" (optional str_validator) None data = Ok (SpaceStatus.api s).
Proof.
  unfold SpaceStatus.init, SpaceStatus.of_dict. intros H. fields_of H. done.
Qed.

(** The version fields of a legacy document whose [api] counts as true. *)
Lemma legacy_version_fields (values : gmap string json) (api_version : json)
    (s : SpaceStatus.t) :
  values !! "api" = Some api_version →
  truthy api_version = true →
  values !! "api_compatibility" = None →
  SpaceStatus.init values = Ok s →
  optional (list_validator str_validator) (JList [api_version])
    = Ok (SpaceStatus.api_compatibility s) ∧
  SpaceStatus.api s = None.
Proof.
  intros Ha Ht Hc [Hfc Hfa]%init_version_fields.
  rewrite (handle_api_versions_legacy _ _ Ha Hc Ht) in Hfc, Hfa.
  apply field_Ok in Hfc, Hfa.
  rewrite lookup_insert_eq in Hfc.
  by rewrite lookup_insert_ne, lookup_delete_eq in Hfa by done.
Qed.

(** The root validator adds no [api] key. *)
Lemma handle_api_versions_api (values : gmap string json) v :
  SpaceStatus.handle_api_versions values !! "api" = Some v →
  values !! "api" = Some v.
Proof.
  unfold SpaceStatus.handle_api_versions.
  repeat match goal with
  | |- context [if ?b then _ else _] => destruct b
  end; rewrite ?lookup_insert_ne, ?lookup_delete_eq by done; done.
Qed.

(** What the version fields of a record serialise to. *)
Lemma init_version_dumps (values : gmap string json) (s : SpaceStatus.t) :
  SpaceStatus.init values = Ok s →
  let data := SpaceStatus.handle_api_versions values in
  dict_get "api_compatibility" data
    = dump_option (dump_list JStr) (SpaceStatus.api_compatibility s) ∧
  dict_get "api" data = dump_option JStr (SpaceStatus.api s).
Proof.
  intros [Hfc Hfa]%init_version_fields. split.
  - eapply (field_lossless _ _ (dump_option (dump_list JStr)));
      [| |eassumption]; [|done].
    apply lossless_optional, lossless_list, lossless_str.
  - eapply (field_lossless _ _ (dump_option JStr)); [| |eassumption]; [|done].
    apply lossless_optional, lossless_str.
Qed.

Lemma truthy_versions (o : option (list string)) :
  truthy (dump_option (dump_list JStr) o) = true → ∃ x l, o = Some (x :: l).
Proof. destruct o as [[|x l]|]; try done. eauto. Qed.

(** C10. A non-empty legacy [api] string without [api_compatibility] is
    moved, not copied: the record's [api] is [None] and the value is the
    one entry of [api_compatibility]. *)
Theorem legacy_api_is_moved (values : gmap string json) (X : string)
    (s : SpaceStatus.t) :
  values !! "api" = Some (JStr X) →
  X ≠ "" →
  values !! "api_compatibility" = None →
  SpaceStatus.init values = Ok s →
  SpaceStatus.api s = None ∧ SpaceStatus.api_compatibility s = Some [X].
Proof.
  intros Ha HX Hc Hs.
  destruct (legacy_version_fields _ _ _ Ha (truthy_str _ HX) Hc Hs)
    as [Hfc Hfa].
  split; [done|]. by injection Hfc as <-.
Qed.

(** C4, as amended. With a non-empty legacy [api] string X and no
    [api_compatibility] the versions are [[X]]; with neither field, and
    also with an empty [api] string, they are the default [["14"]]. *)
Theorem legacy_api_versions (values : gmap string json) (s : SpaceStatus.t) :
  values !! "api_compatibility" = None →
  SpaceStatus.init values = Ok s →
  (∀ X, values !! "api" = Some (JStr X) → X ≠ "" →
        SpaceStatus.api_compatibility s = Some [X]) ∧
  (values !! "api" = None →
        SpaceStatus.api_compatibility s = Some ["14"%string]) ∧
  (values !! "api" = Some (JStr "") →
        SpaceStatus.api_compatibility s = Some ["14"%string]).
Proof.
  intros Hc Hs. pose proof Hs as [Hfc _]%init_version_fields.
  split_and!.
  - intros X Ha HX.
    destruct (legacy_version_fields _ _ _ Ha (truthy_str _ HX) Hc Hs)
      as [HX' _].
    by injection HX' as <-.
  - intros Ha. rewrite (handle_api_versions_neither _ Ha Hc) in Hfc.
    apply field_Ok in Hfc. rewrite lookup_insert_eq in Hfc.
    by injection Hfc as <-.
  - intros Ha.
    rewrite (handle_api_versions_legacy_falsy _ _ Ha Hc eq_refl) in Hfc.
    apply field_Ok in Hfc. rewrite lookup_insert_eq in Hfc.
    by injection Hfc as <-.
Qed.

(** C5, as amended. A record carries a version: [api_compatibility] has an
    entry, or else it is empty or [None] and the version is the record's
    [api], a non-empty string that the document gave next to an empty or
    null [api_compatibility].  A document without the key
    [api_compatibility] always gets a non-empty [api_compatibility]. *)
Theorem record_has_a_version (values : gmap string json) (s : SpaceStatus.t) :
  SpaceStatus.init values = Ok s →
  ((∃ x l, SpaceStatus.api_compatibility s = Some (x :: l)) ∨
   (∃ X, X ≠ ""%string ∧ values !! "api" = Some (JStr X) ∧
         SpaceStatus.api s = Some X ∧
         (SpaceStatus.api_compatibility s = None ∨
          SpaceStatus.api_compatibility s = Some []))) ∧
  (values !! "api_compatibility" = None →
   ∃ x l, SpaceStatus.api_compatibility s = Some (x :: l)).
Proof.
  intros Hs.
  pose proof (handle_api_versions_post values) as Hpost.
  pose proof Hs as [Hdc Hda]%init_version_dumps.
  pose proof Hs as [Hfc Hfa]%init_version_fields.
  simpl in Hpost. rewrite Hdc, Hda in Hpost.
  assert (Hor : (∃ x l, SpaceStatus.api_compatibility s = Some (x :: l)) ∨
    (∃ X, X ≠ ""%string ∧ values !! "api" = Some (JStr X) ∧
          SpaceStatus.api s = Some X ∧
          (SpaceStatus.api_compatibility s = None ∨
           SpaceStatus.api_compatibility s = Some []))).
  { destruct (truthy (dump_option (dump_list JStr) _)) eqn:Ht.
    { left. by apply truthy_versions. }
    right. simpl in Hpost.
    destruct (SpaceStatus.api s) as [X|] eqn:EX; [|done].
    exists X. split_and!.
    - intros ->. done.
    - apply field_Ok in Hfa.
      destruct (SpaceStatus.handle_api_versions values !! "api") as [v|] eqn:Ev;
        [|done].
      apply handle_api_versions_api in Ev. rewrite Ev. f_equal.
      by destruct v; try done; injection Hfa as ->.
    - done.
    - destruct (SpaceStatus.api_compatibility s) as [[|]|]; eauto; done. }
  split; [done|]. intros Hc.
  destruct Hor as [?|(X & HX & Ha & _ & Hempty)]; [done|].
  destruct (legacy_version_fields _ _ _ Ha (truthy_str _ HX) Hc Hs)
    as [Hl _].
  injection Hl as Hl. rewrite <- Hl in Hempty. by destruct Hempty.
Qed.

End ApiVersions.

(** ** The space name *)

Section SpaceName.
Context `{core : PydanticCore}.

(** C3, as amended. A record is made only of a document whose [space] is a
    string, and that string, be it empty, is the record's [space]; a
    document without [space] is never validated: the validation report has
    the line "space: missing", unless an exception of a validator took the
    place of the report. *)
Theorem space_is_required (values : gmap string json) :
  (∀ s, SpaceStatus.init values = Ok s →
        values !! "space" = Some (JStr (SpaceStatus.space s))) ∧
  (values !! "space" = None →
   failed_with (LineError [Key "space"] missing) (SpaceStatus.init values)).
Proof.
  split.
  - unfold SpaceStatus.init, SpaceStatus.of_dict. intros s H. fields_of H.
    match goal with
    | H : required "space" _ _ = Ok _ |- _ =>
        apply required_Ok in H as (v & Hv & Hs)
    end.
    rewrite handle_api_versions_other in Hv by done. rewrite Hv.
    by destruct v; try done; injection Hs as ->.
  - intros Hv. unfold SpaceStatus.init, SpaceStatus.of_dict.
    do 18 apply failed_with_ap_l. apply failed_with_ap_r.
    unfold required. rewrite handle_api_versions_other, Hv by done.
    simpl. by left.
Qed.

End SpaceName.

(** ** Fields that do not pass *)

Section FailedChecks.
Context `{core : PydanticCore}.

(** A record is made exactly when [space] is a string and every other field
    that the dict has passes its test. *)
Lemma of_dict_is_ok (data : gmap string json) :
  is_ok (SpaceStatus.of_dict data)
  = from_option (λ v, is_ok (str_validator v)) false (data !! "space")
    && forallb (λ c, from_option c.2 true (data !! c.1)) optional_field_checks.
Proof.
  unfold SpaceStatus.of_dict.
  rewrite !ap_is_ok, !field_is_ok, required_is_ok.
  unfold optional_field_checks. cbn [forallb fst snd is_ok].
  rewrite <- !andb_assoc. cbn [andb].
  destruct (from_option _ false _).
  - cbn [andb]. by rewrite andb_true_r.
  - cbn [andb]. by rewrite !andb_false_r.
Qed.

(** A field whose raw value does not pass its test fails the record. *)
Lemma failed_check_fails_init (values : gmap string json) name check v :
  (name, check) ∈ optional_field_checks →
  SpaceStatus.handle_api_versions values !! name = Some v →
  check v = false →
  is_ok (SpaceStatus.init values) = false.
Proof.
  intros Hin Hv Hcheck. unfold SpaceStatus.init.
  rewrite of_dict_is_ok. apply andb_false_intro2.
  apply not_true_is_false. intros Hall.
  apply forallb_forall with (x := (name, check)) in Hall;
    [|by apply list_elem_of_In].
  simpl in Hall. rewrite Hv in Hall. simpl in Hall. congruence.
Qed.


(** A document whose [lastchange] does not get through its validator gives
    no record. *)
Lemma failed_lastchange_fails_init (values state : gmap string json) v :
  values !! "state" = Some (JDict state) →
  state !! "lastchange" = Some v →
  is_ok (SpaceState.lastchange_validator v) = false →
  is_ok (SpaceStatus.init values) = false.
Proof.
  intros Hstate Hv Hfail.
  apply (failed_check_fails_init values "state"%string
           (λ v, is_ok (optional (model SpaceState.of_dict) v))
           (JDict state)).
  - unfold optional_field_checks. do 7 right. left.
  - by rewrite handle_api_versions_other.
  - assert (Hof : is_ok (SpaceState.of_dict state) = false).
    { unfold SpaceState.of_dict.
      rewrite !ap_is_ok, !field_is_ok, Hv. simpl. rewrite Hfail.
      by rewrite !andb_false_r. }
    simpl. by destruct (SpaceState.of_dict state).
Qed.

End FailedChecks.

(** ** Timestamps *)

Section Timestamps.
Context `{core : PydanticCore}.

(** What is made of an integer and of a float timestamp. *)
Lemma lastchange_validator_int (n : Z) :
  SpaceState.lastchange_validator (JInt n)
  = Ok (if n <? 0 then None else Some (NInt n)).
Proof.
  unfold SpaceState.lastchange_validator. simpl. by destruct (n <? 0).
Qed.

Lemma lastchange_validator_float (f : float) (n : Z) :
  int_of_float f = inr n →
  SpaceState.lastchange_validator (JFloat f)
  = Ok (if n <? 0 then None else Some (NInt n)).
Proof.
  intros Hn. unfold SpaceState.lastchange_validator. simpl. rewrite Hn. simpl.
  by destruct (n <? 0).
Qed.

(** The [lastchange] of a record, read off the document. *)
Lemma init_lastchange (values state : gmap string json) (v : json)
    (s : SpaceStatus.t) :
  values !! "state" = Some (JDict state) →
  state !! "lastchange" = Some v →
  SpaceStatus.init values = Ok s →
  ∃ st, SpaceStatus.state s = Some st ∧
        SpaceState.lastchange_validator v = Ok (SpaceState.lastchange st).
Proof.
  intros Hstate Hv. unfold SpaceStatus.init, SpaceStatus.of_dict.
  intros H. fields_of H.
  match goal with
  | H : field "state" _ _ _ = Ok _ |- _ => apply field_Ok in H as Hst
  end.
  rewrite handle_api_versions_other, Hstate in Hst by done.
  simpl in Hst. apply omap_ok_Ok in Hst as (st & Hst & ->).
  exists st. split; [done|].
  unfold SpaceState.of_dict in Hst. fields_of Hst.
  match goal with
  | H : field "lastchange" _ _ _ = Ok _ |- _ => apply field_Ok in H as Hl
  end.
  by rewrite Hv in Hl.
Qed.

(** [int] of a finite float is its integer part: the sign is kept and the
    magnitude is rounded down. *)
Lemma int_of_float_truncates (sign : bool) (m : positive) (e : Z) :
  ∃ a, int_of_float (S754_finite sign m e) = inr (if sign then - a else a) ∧
       0 ≤ a ∧
       (0 ≤ e → a = Z.pos m * 2 ^ e) ∧
       (e < 0 → a * 2 ^ (- e) ≤ Z.pos m < (a + 1) * 2 ^ (- e)).
Proof.
  simpl. destruct (0 <=? e) eqn:E.
  - apply Z.leb_le in E. eexists. split_and!; [done| |done|lia].
    apply Z.mul_nonneg_nonneg; [lia|]. by apply Z.pow_nonneg.
  - apply Z.leb_gt in E. eexists. split_and!; [done| |lia|].
    + apply Z.div_pos; [lia|]. apply Z.pow_pos_nonneg; lia.
    + intros _. assert (0 < 2 ^ (- e)) by (apply Z.pow_pos_nonneg; lia).
      split.
      * rewrite Z.mul_comm. by apply Z.mul_div_le.
      * rewrite Z.mul_comm. apply Z.mul_succ_div_gt. lia.
Qed.


(** C6, as amended. A finite float timestamp is first truncated towards
    zero to whole seconds; a timestamp that is negative then (a negative
    integer, a finite float of -1 or less) is absent in the record, without
    an error, and any other one is kept as an integer: so a float between -1
    and 0 becomes 0.  A float that is not finite is not absent: [int(v)]
    raises [OverflowError] for an infinity and [ValueError] for [nan], and
    no record is made.  The float [S754_finite sign m e] is [m * 2 ^ e],
    negated when [sign] is set, and [a] is its integer part; a negative one
    is -1 or less when [0 ≤ e] or [2 ^ (- e) ≤ m], and above -1 when
    [e < 0] and [m < 2 ^ (- e)].  The record holds
    what the validator of the field made of the value, and there is no
    record when the validator failed. *)
Theorem lastchange_is_truncated_then_checked :
  (∀ n, SpaceState.lastchange_validator (JInt n)
        = Ok (if n <? 0 then None else Some (NInt n))) ∧
  (∀ sign m e, ∃ a,
        0 ≤ a ∧
        (0 ≤ e → a = Z.pos m * 2 ^ e) ∧
        (e < 0 → a * 2 ^ (- e) ≤ Z.pos m < (a + 1) * 2 ^ (- e)) ∧
        SpaceState.lastchange_validator (JFloat (S754_finite sign m e))
        = Ok (if sign && (0 <? a) then None
              else Some (NInt (if sign then - a else a)))) ∧
  (∀ m e, 0 ≤ e ∨ 2 ^ (- e) ≤ Z.pos m →
        SpaceState.lastchange_validator (JFloat (S754_finite true m e))
        = Ok None) ∧
  (∀ m e, e < 0 → Z.pos m < 2 ^ (- e) →
        SpaceState.lastchange_validator (JFloat (S754_finite true m e))
        = Ok (Some (NInt 0))) ∧
  (∀ sign, SpaceState.lastchange_validator (JFloat (S754_zero sign))
           = Ok (Some (NInt 0))) ∧
  (∀ sign, SpaceState.lastchange_validator (JFloat (S754_infinity sign))
           = Raised OverflowError) ∧
  SpaceState.lastchange_validator (JFloat S754_nan) = fail value_error ∧
  (∀ (values state : gmap string json) v s,
        values !! "state" = Some (JDict state) →
        state !! "lastchange" = Some v →
        SpaceStatus.init values = Ok s →
        ∃ st, SpaceStatus.state s = Some st ∧
              SpaceState.lastchange_validator v
              = Ok (SpaceState.lastchange st)) ∧
  (∀ (values state : gmap string json) v,
        values !! "state" = Some (JDict state) →
        state !! "lastchange" = Some v →
        is_ok (SpaceState.lastchange_validator v) = false →
        is_ok (SpaceStatus.init values) = false).
Proof.
  assert (Hfinite : ∀ sign m e, ∃ a,
    0 ≤ a ∧
    (0 ≤ e → a = Z.pos m * 2 ^ e) ∧
    (e < 0 → a * 2 ^ (- e) ≤ Z.pos m < (a + 1) * 2 ^ (- e)) ∧
    SpaceState.lastchange_validator (JFloat (S754_finite sign m e))
    = Ok (if sign && (0 <? a) then None
          else Some (NInt (if sign then - a else a)))).
  { intros sign m e.
    destruct (int_of_float_truncates sign m e) as (a & Ha & H0 & Hpos & Hneg).
    exists a. split_and!; [done..|].
    rewrite (lastchange_validator_float _ _ Ha).
    destruct sign; simpl.
    - destruct (Z.ltb_spec (- a) 0), (Z.ltb_spec 0 a); try done; lia.
    - destruct (Z.ltb_spec a 0); [lia|done]. }
  split_and!.
  - apply lastchange_validator_int.
  - done.
  - intros m e Hle.
    destruct (Hfinite true m e) as (a & H0 & Hpos & Hneg & ->).
    assert (0 < a) as ->%Z.ltb_lt; [|done].
    destruct (Z.le_gt_cases 0 e) as [He|He].
    + rewrite (Hpos He). apply Z.mul_pos_pos; [lia|].
      by apply Z.pow_pos_nonneg.
    + destruct Hle as [?|Hle]; [lia|]. specialize (Hneg He).
      assert (0 < 2 ^ (- e)) by (apply Z.pow_pos_nonneg; lia). nia.
  - intros m e He Hlt.
    destruct (Hfinite true m e) as (a & H0 & _ & Hneg & ->).
    specialize (Hneg He).
    assert (0 < 2 ^ (- e)) by (apply Z.pow_pos_nonneg; lia).
    assert (a = 0) as -> by nia. done.
  - done.
  - done.
  - done.
  - apply init_lastchange.
  - apply failed_lastchange_fails_init.
Qed.

End Timestamps.

(** ** A field that fails *)

Section FieldFailure.
Context `{core : PydanticCore}.



(** The coordinates that a location holds are within the bounds. *)
Lemma location_in_bounds (location : gmap string json) (l : SpaceLocation.t) :
  SpaceLocation.of_dict location = Ok l →
  (∀ f, SpaceLocation.lat l = Some f →
        SFleb (float_const (-90)) f && SFleb f (float_const 90) = true) ∧
  (∀ f, SpaceLocation.lon l = Some f →
        SFleb (float_const (-180)) f && SFleb f (float_const 180) = true).
Proof.
  assert (Hb : ∀ name lo hi f,
    field name (optional (bounded_float lo hi)) None location = Ok (Some f) →
    SFleb (float_const lo) f && SFleb f (float_const hi) = true).
  { intros name lo hi f H%field_Ok. destruct (location !! name); [|done].
    apply optional_Ok in H as [[_ [=]]|[_ (f' & Hf & [= <-])]].
    by apply bounded_float_Ok in Hf as (_ & -> & ->). }
  unfold SpaceLocation.of_dict. intros H. fields_of H.
  split; intros f ->; by eapply Hb.
Qed.



End FieldFailure.

(** ** Sensors *)




Section Sensors.
Context `{core : PydanticCore}.



End Sensors.

(** ** The directory *)

Section Directory.
Context `{core : PydanticCore}.

(** The loop of [from_dict]: it ends with a dict when every value is a URL,
    and with the exception of [HttpUrl] otherwise. *)
Lemma from_dict_loop (d : gmap string json) :
  let loop := map_fold (λ name url acc,
                obind acc (SpaceDirectory.from_dict_item name url))
              (Ok ∅) d in
  (map_Forall (λ _ v, is_ok (url_validator v) = true) d ∧
   ∃ spaces : gmap string Url,
     loop = Ok spaces ∧
     ∀ k, Ok <$> spaces !! k = url_validator <$> d !! k)
  ∨ (¬ map_Forall (λ _ v, is_ok (url_validator v) = true) d ∧
     is_ok loop = false).
Proof.
  simpl. apply (map_fold_weak_ind (λ r m,
    (map_Forall (λ _ v, is_ok (url_validator v) = true) m ∧
     ∃ spaces : gmap string Url,
       r = Ok spaces ∧ ∀ k, Ok <$> spaces !! k = url_validator <$> m !! k)
    ∨ (¬ map_Forall (λ _ v, is_ok (url_validator v) = true) m ∧
       is_ok r = false))).
  - left. split; [apply map_Forall_empty|]. exists ∅. split; [done|].
    intros k. by rewrite !lookup_empty.
  - intros i x m r Hi [[HF (spaces & -> & Hs)]|[HF Hr]].
    + simpl. unfold SpaceDirectory.from_dict_item.
      destruct (url_validator x) as [u| |] eqn:Ex; simpl.
      * left. split.
        { apply map_Forall_insert; [done|]. by rewrite Ex. }
        exists (<[i:=u]> spaces). split; [done|]. intros k.
        destruct (decide (i = k)) as [->|].
        -- rewrite !lookup_insert_eq. simpl. by rewrite Ex.
        -- by rewrite !lookup_insert_ne.
      * right. split; [|done].
        intros [Hx _]%map_Forall_insert; [|done]. by rewrite Ex in Hx.
      * right. split; [|done].
        intros [Hx _]%map_Forall_insert; [|done]. by rewrite Ex in Hx.
    + right. split.
      * intros [_ ?]%map_Forall_insert; done.
      * by destruct r.
Qed.

(** C2, as amended. The directory is parsed as a whole or not at all: when
    every value is an absolute URL the mapping has one entry per entry of
    the document, each under its name with its URL; one value that is no
    URL fails the whole parse. *)
Theorem directory_all_or_nothing (d : gmap string json) :
  (map_Forall (λ _ v, is_ok (url_validator v) = true) d →
   ∃ directory,
     SpaceDirectory.from_dict (JDict d) = Ok directory ∧
     size (SpaceDirectory.spaces directory) = size d ∧
     ∀ name, Ok <$> SpaceDirectory.spaces directory !! name
             = url_validator <$> d !! name) ∧
  (∀ name v, d !! name = Some v → is_ok (url_validator v) = false →
     is_ok (SpaceDirectory.from_dict (JDict d)) = false).
Proof.
  unfold SpaceDirectory.from_dict.
  destruct (from_dict_loop d) as [[HF (spaces & Hl & Hs)]|[HF Hr]];
    simpl in *.
  - split.
    + intros _. exists (SpaceDirectory.Make spaces). rewrite Hl. simpl.
      split_and!; [done| |done].
      rewrite <- !size_dom. f_equal. apply set_eq. intros k.
      rewrite !elem_of_dom. specialize (Hs k).
      destruct (spaces !! k), (d !! k); simpl in *;
        rewrite ?is_Some_alt; try done.
    + intros name v Hv Hn. specialize (HF name v Hv). simpl in HF. congruence.
  - split; [done|]. intros. by destruct (map_fold _ _ _).
Qed.

End Directory.

(** ** The batch fetch *)

Section Batch.
Context `{core : PydanticCore}.
Variable session_get : string → reply.




End Batch.

Section BatchResult.
Context `{core : PydanticCore}.



End BatchResult.

(** ** More on the root validator *)

(** X1. The root validator always leaves a document with the key
    [api_compatibility], and applying it twice is applying it once. *)
Theorem handle_api_versions_idempotent (values : gmap string json) :
  is_Some (SpaceStatus.handle_api_versions values !! "api_compatibility") ∧
  SpaceStatus.handle_api_versions (SpaceStatus.handle_api_versions values)
  = SpaceStatus.handle_api_versions values.
Proof.
  assert (Hkey : is_Some (SpaceStatus.handle_api_versions values
                            !! "api_compatibility")).
  { destruct (values !! "api_compatibility") as [c|] eqn:Hc.
    - rewrite (handle_api_versions_present _ _ Hc).
      destruct (_ && _); [by rewrite lookup_insert_eq|by rewrite Hc].
    - destruct (values !! "api") as [a|] eqn:Ha.
      + destruct (truthy a) eqn:Ht.
        * rewrite (handle_api_versions_legacy _ _ Ha Hc Ht).
          by rewrite lookup_insert_eq.
        * rewrite (handle_api_versions_legacy_falsy _ _ Ha Hc Ht).
          by rewrite lookup_insert_eq.
      + rewrite (handle_api_versions_neither _ Ha Hc).
        by rewrite lookup_insert_eq. }
  split; [done|]. destruct Hkey as [c Hc].
  rewrite (handle_api_versions_present _ _ Hc).
  pose proof (handle_api_versions_post values) as Hpost. simpl in Hpost.
  unfold dict_get at 1 in Hpost. rewrite Hc in Hpost. simpl in Hpost.
  by destruct (truthy c), (truthy (dict_get "api" _)).
Qed.

(** ** More on the sensors validator *)

(** X2. [validate_sensors] is idempotent: what it returns it leaves as it
    is, and when it raises there is nothing to clean again. *)
Theorem validate_sensors_idempotent (v : json) :
  obind (SpaceStatus.validate_sensors v) SpaceStatus.validate_sensors
  = SpaceStatus.validate_sensors v.
Proof.
  destruct (SpaceStatus.validate_sensors v) as [v'| |] eqn:E; simpl; [|done..].
  by apply validate_sensors_fixed in E.
Qed.

(** ** More on the state and the location *)

Section StateAndLocation.
Context `{core : PydanticCore}.

(** The state of a record, read off the document. *)
Lemma init_state (values : gmap string json) (s : SpaceStatus.t)
    (st : SpaceState.t) :
  SpaceStatus.init values = Ok s →
  SpaceStatus.state s = Some st →
  ∃ state, values !! "state" = Some (JDict state) ∧
           SpaceState.of_dict state = Ok st.
Proof.
  unfold SpaceStatus.init, SpaceStatus.of_dict. intros H Hst.
  fields_of H. simpl in Hst. subst.
  match goal with
  | H : field "state" _ _ _ = Ok _ |- _ => apply field_Ok in H as Hf
  end.
  rewrite handle_api_versions_other in Hf by done.
  destruct (values !! "state") as [v|]; [|done].
  apply optional_Ok in Hf as [[_ [=]]|[_ (st' & Hst' & [= <-])]].
  destruct v; try done. eauto.
Qed.

(** The location of a record, read off the document. *)
Lemma init_location (values : gmap string json) (s : SpaceStatus.t)
    (l : SpaceLocation.t) :
  SpaceStatus.init values = Ok s →
  SpaceStatus.location s = Some l →
  ∃ location, values !! "location" = Some (JDict location) ∧
              SpaceLocation.of_dict location = Ok l.
Proof.
  unfold SpaceStatus.init, SpaceStatus.of_dict. intros H Hl.
  fields_of H. simpl in Hl. subst.
  match goal with
  | H : field "location" _ _ _ = Ok _ |- _ => apply field_Ok in H as Hf
  end.
  rewrite handle_api_versions_other in Hf by done.
  destruct (values !! "location") as [v|]; [|done].
  apply optional_Ok in Hf as [[_ [=]]|[_ (l' & Hl' & [= <-])]].
  destruct v; try done. eauto.
Qed.

(** X3. The [lastchange] of the state of a record is [None] or a whole
    number of seconds that is not negative: never a float, whatever the
    document gave. *)
Theorem lastchange_is_whole_and_not_negative (values : gmap string json)
    (s : SpaceStatus.t) (st : SpaceState.t) :
  SpaceStatus.init values = Ok s →
  SpaceStatus.state s = Some st →
  SpaceState.lastchange st = None ∨
  ∃ n, SpaceState.lastchange st = Some (NInt n) ∧ 0 ≤ n.
Proof.
  intros Hs Hst.
  destruct (init_state _ _ _ Hs Hst) as (state & _ & Hof).
  unfold SpaceState.of_dict in Hof. fields_of Hof.
  match goal with
  | H : field "lastchange" _ _ _ = Ok _ |- _ => apply field_Ok in H as Hl
  end.
  destruct (state !! "lastchange") as [v|]; [|by left].
  apply lastchange_validator_Ok in Hl as [?|(n & -> & Hn)]; [by left|].
  right. exists n. split; [done|]. by apply Z.ltb_ge.
Qed.

(** A float between two numbers is a number. *)
Lemma between_is_finite (lo hi f : float) :
  is_finite lo = true → is_finite hi = true →
  SFleb lo f && SFleb f hi = true →
  is_finite f = true.
Proof.
  intros Hlo Hhi [H1 H2]%andb_true_iff.
  destruct f as [|[]| |]; try done.
  - by destruct lo as [|[]| |[]].
  - by destruct hi as [|[]| |[]].
Qed.

(** X4. The coordinates of a record are numbers: no record holds a [nan]
    or an infinite latitude or longitude. *)
Theorem coordinates_are_finite (values : gmap string json)
    (s : SpaceStatus.t) (l : SpaceLocation.t) :
  SpaceStatus.init values = Ok s →
  SpaceStatus.location s = Some l →
  (∀ f, SpaceLocation.lat l = Some f → is_finite f = true) ∧
  (∀ f, SpaceLocation.lon l = Some f → is_finite f = true).
Proof.
  intros Hs Hl.
  destruct (init_location _ _ _ Hs Hl) as (location & _ & Hof).
  apply location_in_bounds in Hof as [Hlat Hlon].
  split; intros f Hf;
    (eapply between_is_finite; [| |eauto]; vm_compute; reflexivity).
Qed.

End StateAndLocation.

(** ** Keys that are no field *)

(** The root validator leaves a key that is no version field where it
    is. *)
Lemma handle_api_versions_insert (values : gmap string json) key v :
  key ≠ "api" → key ≠ "api_compatibility" →
  SpaceStatus.handle_api_versions (<[key := v]> values)
  = <[key := v]> (SpaceStatus.handle_api_versions values).
Proof.
  intros H1 H2.
  assert (Hget : dict_get "api" (<[key := v]> values) = dict_get "api" values).
  { unfold dict_get. by rewrite lookup_insert_ne. }
  destruct (values !! "api_compatibility") as [c|] eqn:Hc.
  - rewrite (handle_api_versions_present _ c), (handle_api_versions_present _ c Hc)
      by by rewrite lookup_insert_ne.
    rewrite Hget. destruct (_ && _); [|done]. by apply insert_insert_ne.
  - destruct (values !! "api") as [a|] eqn:Ha.
    + destruct (truthy a) eqn:Ht.
      * rewrite (handle_api_versions_legacy _ a), (handle_api_versions_legacy _ a Ha Hc Ht)
          by by rewrite ?lookup_insert_ne.
        rewrite delete_insert_ne by done. by apply insert_insert_ne.
      * rewrite (handle_api_versions_legacy_falsy _ a),
          (handle_api_versions_legacy_falsy _ a Ha Hc Ht)
          by by rewrite ?lookup_insert_ne.
        rewrite delete_insert_ne by done. by apply insert_insert_ne.
    + rewrite handle_api_versions_neither, (handle_api_versions_neither _ Ha Hc)
        by by rewrite ?lookup_insert_ne.
      by apply insert_insert_ne.
Qed.

Section UnknownKeys.
Context `{core : PydanticCore}.

(** X5. A key of the document that is no field of [SpaceStatus] is
    ignored: the record is the one of the document without the key, and so
    is the failure. *)
Theorem unknown_keys_are_ignored (values : gmap string json) (key : string)
    (v : json) :
  key ∉ SpaceStatus_fields →
  SpaceStatus.init (<[key := v]> values) = SpaceStatus.init values.
Proof.
  unfold SpaceStatus_fields. rewrite !not_elem_of_cons.
  intros H. destruct_and!.
  unfold SpaceStatus.init. rewrite handle_api_versions_insert by done.
  unfold SpaceStatus.of_dict, field, required.
  by rewrite !lookup_insert_ne by done.
Qed.

End UnknownKeys.

(** ** The sensors of a record *)



Section RecordSensors.
Context `{core : PydanticCore}.




End RecordSensors.

(** ** Exceptions of the validators *)

Section ValidatorExceptions.
Context `{core : PydanticCore}.

(** No status is returned for a document that is not validated. *)
Lemma get_space_status_None (session_get : string → reply) url values :
  session_get url = JsonBody (JDict values) →
  is_ok (SpaceStatus.init values) = false →
  get_space_status session_get url = None.
Proof.
  intros Hget Hok. unfold get_space_status, SpaceStatus_call. rewrite Hget.
  by destruct (SpaceStatus.init values).
Qed.

(** X7. A [lastchange] that is a string (a numeric one too), a list or a
    dict loses the whole space: [validate_timestamp] compares it with 0,
    the [TypeError] ends the validation, and [get_space_status] answers
    [None]. *)
Theorem unordered_lastchange_loses_the_space (session_get : string → reply)
    (url : string) (values state : gmap string json) (v : json) :
  session_get url = JsonBody (JDict values) →
  values !! "state" = Some (JDict state) →
  state !! "lastchange" = Some v →
  unordered v →
  SpaceState.validate_timestamp v = Raised TypeError ∧
  get_space_status session_get url = None.
Proof.
  intros Hget Hstate Hv Hun.
  assert (Hraise : SpaceState.validate_timestamp v = Raised TypeError).
  { by destruct Hun as [[? ->]|[[? ->]|[? ->]]]. }
  split; [done|].
  apply (get_space_status_None _ _ _ Hget).
  apply (failed_check_fails_init values "state"%string
           (λ v, is_ok (optional (model SpaceState.of_dict) v))
           (JDict state)).
  - unfold optional_field_checks. do 7 right. left.
  - by rewrite handle_api_versions_other.
  - assert (Hof : is_ok (SpaceState.of_dict state) = false).
    { unfold SpaceState.of_dict.
      rewrite !ap_is_ok, !field_is_ok, Hv. simpl.
      unfold SpaceState.lastchange_validator. rewrite Hraise. simpl.
      by rewrite !andb_false_r. }
    simpl. by destruct (SpaceState.of_dict state).
Qed.

(** X8. Sensors that are neither [None] nor a dict, and sensors with a
    category that cannot be iterated over (a number, a bool), lose the whole
    space: the exception of [validate_sensors] ends the validation, and
    [get_space_status] answers [None]. *)
Theorem malformed_sensors_lose_the_space (session_get : string → reply)
    (url : string) (values : gmap string json) (v : json) :
  session_get url = JsonBody (JDict values) →
  values !! "sensors" = Some v →
  (v ≠ JNull ∧ ∀ d, v ≠ JDict d) ∨
  (∃ d category x, v = JDict d ∧ d !! category = Some x ∧ ¬ iterable x) →
  (∃ e, SpaceStatus.validate_sensors v = Raised e) ∧
  get_space_status session_get url = None.
Proof.
  intros Hget Hv Hbad.
  assert (Hraise : ∃ e, SpaceStatus.validate_sensors v = Raised e).
  { destruct Hbad as [[Hn Hd]|(d & category & x & -> & Hx & Hit)].
    - destruct v; try done; simpl; eauto. by destruct (Hd d).
    - exists TypeError. simpl.
      destruct (validate_sensors_loop d) as [[HF _]|[_ Hl]].
      + destruct Hit. by apply (HF category).
      + simpl in Hl. by rewrite Hl. }
  split; [done|]. destruct Hraise as [e Hraise].
  apply (get_space_status_None _ _ _ Hget).
  apply (failed_check_fails_init values "sensors"%string
           (λ v, is_ok (SpaceStatus.sensors_validator v)) v).
  - unfold optional_field_checks. do 16 right. left.
  - by rewrite handle_api_versions_other.
  - unfold SpaceStatus.sensors_validator. by rewrite Hraise.
Qed.

End ValidatorExceptions.

(** ** Substrings *)

Lemma append_cons (a : Ascii.ascii) (s t : string) :
  String a s +:+ t = String a (s +:+ t).
Proof. done. Qed.

Lemma prefix_app (s1 s2 : string) :
  String.prefix s1 s2 = true ↔ ∃ post, s2 = s1 +:+ post.
Proof.
  revert s2. induction s1 as [|a s1 IH]; intros s2.
  - split; [by exists s2|by destruct s2].
  - setoid_rewrite append_cons. destruct s2 as [|b s2]; simpl.
    + split; [done|]. by intros [post [=]].
    + destruct (Ascii.ascii_dec a b) as [->|Hab].
      * rewrite IH. split; intros [post Hp]; exists post; congruence.
      * split; [done|]. intros [post [= ? _]]. congruence.
Qed.

Lemma index_cons (sub : string) (b : Ascii.ascii) (s : string) :
  String.index 0 sub (String b s)
  = if String.prefix sub (String b s) then Some 0%nat
    else S <$> String.index 0 sub s.
Proof. done. Qed.

(** [sub in s]: [s] is made of a string, [sub], and a string. *)
Lemma str_in_app (sub s : string) :
  str_in sub s = true ↔ ∃ pre post, s = pre +:+ sub +:+ post.
Proof.
  unfold str_in. induction s as [|b s IH].
  - destruct sub as [|a sub]; simpl.
    + split; [|done]. by exists ""%string, ""%string.
    + split; [done|]. by intros ([|??] & post & [=]).
  - rewrite index_cons.
    destruct (String.prefix sub (String b s)) eqn:Hp.
    + split; [|done]. intros _.
      apply prefix_app in Hp as [post Hp]. by exists ""%string, post.
    + transitivity (∃ pre post, s = pre +:+ sub +:+ post).
      * rewrite <- IH. by destruct (String.index 0 sub s).
      * split.
        -- intros (pre & post & ->). by exists (String b pre), post.
        -- intros ([|c pre] & post & Hs).
           ++ assert (String.prefix sub (String b s) = true) as Hp'
                by (apply prefix_app; eauto).
              congruence.
           ++ rewrite append_cons in Hs. injection Hs as -> ->. eauto.
Qed.

(** The empty string is in every string. *)
Lemma str_in_empty (s : string) : str_in "" s = true.
Proof. apply str_in_app. by exists ""%string, s. Qed.

(** ** The directory of the client *)

Section DirectoryProperties.
Context `{core : PydanticCore}.
Variable session_get : string → reply.
Variable directory_url : string.
Variable lower : string → string.
Variable now_isoformat : string.

(** A directory is returned for a document of URLs, and it is that
    document with its values parsed. *)
Lemma get_directory_Return (force_refresh : bool)
    (directory : SpaceDirectory.t) :
  get_directory session_get directory_url force_refresh = Return directory ↔
  ∃ d, session_get directory_url = JsonBody (JDict d) ∧
       map_Forall (λ _ v, is_ok (url_validator v) = true) d ∧
       ∀ name, Ok <$> SpaceDirectory.spaces directory !! name
               = url_validator <$> d !! name.
Proof.
  unfold get_directory. split.
  - destruct (session_get directory_url) as [| |[]]; try done.
    unfold SpaceDirectory.from_dict.
    destruct (from_dict_loop d) as [[HF (spaces & Hl & Hs)]|[HF Hr]];
      simpl in *.
    + rewrite Hl. simpl. intros [= <-]. eauto.
    + by destruct (map_fold _ _ _).
  - intros (d & -> & HF & Hs). unfold SpaceDirectory.from_dict.
    destruct (from_dict_loop d) as [[_ (spaces & Hl & Hs')]|[HF' _]];
      simpl in *; [|done].
    rewrite Hl. simpl. destruct directory as [spaces']. simpl in *.
    do 2 f_equal. apply map_eq. intros name.
    specialize (Hs name). specialize (Hs' name). rewrite <- Hs in Hs'.
    destruct (spaces !! name), (spaces' !! name); simpl in *; congruence.
Qed.

(** The names of a directory are the keys of its document. *)
Lemma directory_dom (spaces : gmap string Url) (d : gmap string json) :
  (∀ name, Ok <$> spaces !! name = url_validator <$> d !! name) →
  dom spaces = dom d.
Proof.
  intros Hs. apply set_eq. intros k.
  rewrite !elem_of_dom. specialize (Hs k).
  destruct (spaces !! k), (d !! k); simpl in *; rewrite ?is_Some_alt; done.
Qed.

(** X9. [get_directory] returns a directory exactly when the request
    gives a JSON object whose values are all URLs, and the directory then
    has each name of the object, and no other, with its URL: an entry is
    never left out, and every failure is an exception. *)
Theorem get_directory_returns_every_entry (force_refresh : bool)
    (directory : SpaceDirectory.t) :
  get_directory session_get directory_url force_refresh = Return directory ↔
  ∃ d, session_get directory_url = JsonBody (JDict d) ∧
       map_Forall (λ _ v, is_ok (url_validator v) = true) d ∧
       size (SpaceDirectory.spaces directory) = size d ∧
       ∀ name, Ok <$> SpaceDirectory.spaces directory !! name
               = url_validator <$> d !! name.
Proof.
  rewrite get_directory_Return. split.
  - intros (d & Hget & HF & Hs). exists d. split_and!; try done.
    by rewrite <- !size_dom, (directory_dom _ _ Hs).
  - intros (d & Hget & HF & _ & Hs). eauto.
Qed.

(** The URLs that a search returns, for a directory. *)
Lemma search_spaces_Return (query search_field : string) (urls : list string) :
  search_spaces session_get directory_url lower query search_field
  = Return urls ↔
  search_field = "name"%string ∧
  ∃ directory,
    get_directory session_get directory_url false = Return directory ∧
    urls = omap (λ item : string * Url,
                   if str_in (lower query) (lower item.1)
                   then Some (unicode_string item.2) else None)
                (map_to_list (SpaceDirectory.spaces directory)).
Proof.
  unfold search_spaces.
  destruct (get_directory _ _ _) as [directory|e].
  - destruct (String.eqb_spec search_field "name") as [->|Hne].
    + split; [intros [= <-]; eauto|]. by intros (_ & ? & [= <-] & ->).
    + split; [done|]. by intros [? _].
  - split; [done|]. by intros (_ & ? & [=] & _).
Qed.

(** X10. [search_spaces] returns only for the search field ["name"] and a
    directory that could be fetched.  It then returns the URLs of the spaces
    whose lowercased name has the lowercased query as a substring, one URL
    for each such space. *)
Theorem search_spaces_returns_the_matches (query search_field : string)
    (urls : list string) :
  search_spaces session_get directory_url lower query search_field
  = Return urls →
  search_field = "name"%string ∧
  ∃ directory,
    get_directory session_get directory_url false = Return directory ∧
    (∀ url, url ∈ urls ↔
       ∃ name u pre post,
         SpaceDirectory.spaces directory !! name = Some u ∧
         lower name = pre +:+ lower query +:+ post ∧
         url = unicode_string u) ∧
    length urls
    = size (filter (λ item, str_in (lower query) (lower item.1) = true)
              (SpaceDirectory.spaces directory)).
Proof.
  intros (-> & directory & Hd & ->)%search_spaces_Return.
  split; [done|]. exists directory. split_and!; [done| |].
  - intros url. rewrite list_elem_of_omap. split.
    + intros ([name u] & Hin%elem_of_map_to_list & Hf). simpl in Hf.
      destruct (str_in _ _) eqn:Hs; [|done]. injection Hf as <-.
      apply str_in_app in Hs as (pre & post & Hs). by exists name, u, pre, post.
    + intros (name & u & pre & post & Hu & Hs & ->).
      exists (name, u). split; [by apply elem_of_map_to_list|]. simpl.
      assert (str_in (lower query) (lower name) = true) as ->; [|done].
      apply str_in_app. eauto.
  - rewrite map_filter_alt.
    set (l := map_to_list (SpaceDirectory.spaces directory)).
    assert (Hnd : NoDup l.*1) by apply NoDup_fst_map_to_list.
    set (P := λ item : string * Url,
                str_in (lower query) (lower item.1) = true).
    assert (Hlen : length (omap (λ item : string * Url,
                     if str_in (lower query) (lower item.1)
                     then Some (unicode_string item.2) else None) l)
                   = length (filter P l)).
    { clear Hnd. induction l as [|item l IH]; [done|]. csimpl.
      rewrite filter_cons. case_decide as Hp; unfold P in Hp.
      - rewrite Hp. simpl. by rewrite IH.
      - apply not_true_is_false in Hp. by rewrite Hp. }
    rewrite Hlen. rewrite <- length_map_to_list.
    apply Permutation_length. symmetry. apply map_to_list_to_map.
    apply (sublist_NoDup _ l.*1); [exact Hnd|apply fmap_sublist, sublist_filter].
Qed.

(** X11. The empty query finds every space: with the search field
    ["name"] it returns the URL of every entry of the directory. *)
Theorem empty_query_finds_every_space (directory : SpaceDirectory.t) :
  lower "" = ""%string →
  get_directory session_get directory_url false = Return directory →
  search_spaces session_get directory_url lower "" "name"
  = Return (unicode_string <$>
              (map_to_list (SpaceDirectory.spaces directory)).*2).
Proof.
  intros Hlower Hd. unfold search_spaces. rewrite Hd, Hlower. simpl.
  f_equal. induction (map_to_list _) as [|item l IH]; [done|].
  csimpl. by rewrite str_in_empty, IH.
Qed.

(** X12. The statistics of the directory: [total_spaces] is the number of
    entries of the directory document, and [sample_spaces] holds ten of its
    names, or all of them when there are fewer, none of them twice. *)
Theorem directory_stats_sample (stats : directory_stats) :
  get_directory_stats session_get directory_url now_isoformat = Return stats →
  ∃ d, session_get directory_url = JsonBody (JDict d) ∧
       total_spaces stats = size d ∧
       length (sample_spaces stats) = Nat.min 10 (size d) ∧
       NoDup (sample_spaces stats) ∧
       ∀ name, name ∈ sample_spaces stats → is_Some (d !! name).
Proof.
  unfold get_directory_stats.
  destruct (get_directory _ _ _) as [directory|e] eqn:Hd; [|done].
  intros [= <-]. simpl.
  apply get_directory_Return in Hd as (d & Hget & _ & Hs).
  apply directory_dom in Hs.
  assert (Hsize : size (SpaceDirectory.spaces directory) = size d).
  { by rewrite <- !size_dom, Hs. }
  exists d. split_and!; try done.
  - by rewrite length_take, length_fmap, length_map_to_list, Hsize.
  - apply (sublist_NoDup _ (map_to_list (SpaceDirectory.spaces directory)).*1);
      [apply NoDup_fst_map_to_list|apply sublist_take].
  - intros name Hin. pose proof (elem_of_sublist _ _ _ Hin (sublist_take _ _)) as Hin'. clear Hin. rename Hin' into Hin.
    apply list_elem_of_fmap in Hin as ([name' u] & -> & Hin%elem_of_map_to_list).
    apply elem_of_dom. rewrite <- Hs. apply elem_of_dom. eauto.
Qed.

End DirectoryProperties.

(** ** The batch fetch, with a URL given more than once *)

Section BatchWithRepeats.
Context `{core : PydanticCore}.
Variable session_get : string → reply.

(** A list has at least as many elements as distinct ones. *)
Lemma size_list_to_set_le (l : list string) :
  (size (list_to_set l : gset string) ≤ length l)%nat.
Proof.
  induction l as [|x l IH]; [done|].
  rewrite list_to_set_cons, size_union_alt, size_singleton.
  apply le_n_S. etrans; [|exact IH].
  apply subseteq_size. set_solver.
Qed.

(** Storing results that are a function of their key: each key holds the
    value of the function, whatever the order and the repetitions. *)
Lemma collect_results_function
    (completed : list (string * option SpaceStatus.t))
    (f : string → option SpaceStatus.t) (url : string) :
  (∀ task, task ∈ completed → task.2 = f task.1) →
  collect_results completed !! url
  = if decide (url ∈ completed.*1) then Some (f url) else None.
Proof.
  unfold collect_results. intros Hf.
  assert (Hacc : ∀ (l : list (string * option SpaceStatus.t))
                   (acc : gmap string (option SpaceStatus.t)),
    (∀ task, task ∈ l → task.2 = f task.1) →
    foldl (λ results task, <[task.1 := task.2]> results) acc l !! url
    = if decide (url ∈ l.*1) then Some (f url) else acc !! url).
  { induction l as [|[k x] l IH]; intros acc Hl.
    - done.
    - rewrite fmap_cons. cbn [foldl fst snd].
      rewrite IH by (intros; apply Hl; by right).
      assert (Hx : x = f k) by apply (Hl (k, x)), list_elem_of_here.
      destruct (decide (url ∈ l.*1)) as [Hin|Hin];
        destruct (decide (url ∈ k :: l.*1)) as [Hin'|Hin']; try done.
      + destruct Hin'. by right.
      + apply elem_of_cons in Hin' as [->|?]; [|done].
        by rewrite lookup_insert_eq, Hx.
      + rewrite lookup_insert_ne; [done|]. intros ->. destruct Hin'. by left. }
  rewrite Hacc by done. by destruct (decide _).
Qed.

(** X13. The batch fetch with any list of URLs, repeated ones too: the
    result has one entry for each distinct URL of the list, which is what
    [get_space_status] answers for it, whatever the order in which the
    fetches finish; so it has at most as many entries as the list has
    URLs. *)
Theorem batch_collapses_repeated_urls (space_urls : list string)
    (max_concurrent : Z) (results : gmap string (option SpaceStatus.t)) :
  get_multiple_space_statuses session_get space_urls max_concurrent results →
  dom results = list_to_set space_urls ∧
  (∀ url, url ∈ space_urls →
     results !! url = Some (get_space_status session_get url)) ∧
  (size results ≤ length space_urls)%nat.
Proof.
  intros [completed _ Hperm].
  assert (Hfst : completed.*1 ≡ₚ space_urls).
  { rewrite Hperm, <- list_fmap_compose. by rewrite list_fmap_id. }
  assert (Hlookup : ∀ url, collect_results completed !! url
    = if decide (url ∈ space_urls)
      then Some (get_space_status session_get url) else None).
  { intros url.
    rewrite (collect_results_function _ (get_space_status session_get)).
    - destruct (decide (url ∈ completed.*1)) as [Hin|Hin];
        rewrite Hfst in Hin.
      + rewrite decide_True; done.
      + rewrite decide_False; done.
    - intros task. rewrite Hperm.
      by intros (u & -> & _)%list_elem_of_fmap. }
  assert (Hdom : dom (collect_results completed)
                 = list_to_set space_urls).
  { apply set_eq. intros url.
    rewrite elem_of_dom, Hlookup, elem_of_list_to_set.
    destruct (decide _); [by split; eauto|].
    split; [by intros [? ?]|done]. }
  split_and!; [done| |].
  - intros url Hin. by rewrite Hlookup, decide_True.
  - rewrite <- size_dom, Hdom. apply size_list_to_set_le.
Qed.

End BatchWithRepeats.

(** ** Counting *)

Lemma count_if_le_length {A} (p : A → bool) (l : list A) :
  (count_if p l ≤ length l)%nat.
Proof. apply filter_length_le. Qed.

Lemma count_if_cons {A} (p : A → bool) (x : A) (l : list A) :
  count_if p (x :: l) = ((if p x then 1 else 0) + count_if p l)%nat.
Proof. unfold count_if. simpl. by destruct (p x). Qed.

Lemma count_if_mono {A} (p q : A → bool) (l : list A) :
  (∀ x, p x = true → q x = true) →
  (count_if p l ≤ count_if q l)%nat.
Proof.
  intros Hpq. induction l as [|x l IH]; [done|]. rewrite !count_if_cons.
  destruct (p x) eqn:Hp; [rewrite (Hpq _ Hp)|destruct (q x)]; lia.
Qed.

Lemma count_if_disjoint {A} (p q : A → bool) (l : list A) :
  (∀ x, p x = true → q x = false) →
  (count_if p l + count_if q l ≤ length l)%nat.
Proof.
  intros Hpq. induction l as [|x l IH]; [done|]. rewrite !count_if_cons.
  simpl. destruct (p x) eqn:Hp; [rewrite (Hpq _ Hp)|destruct (q x)]; lia.
Qed.

(** ** The basic statistics *)

(** X14. The basic statistics are refused for an empty list of spaces
    only.  Else [total_spaces] is the number of spaces, no count is larger
    than it, the open spaces are among those with a state, and the
    percentage is the integer 0 exactly when no space has a state (a float
    otherwise). *)
Theorem basic_stats_counts (now_isoformat : string) (self : SpaceAnalyzer.t) :
  (SpaceAnalyzer.get_basic_stats now_isoformat self = SpaceAnalyzer.NoSpaceData
   ↔ SpaceAnalyzer.spaces_data self = []) ∧
  ∀ stats,
    SpaceAnalyzer.get_basic_stats now_isoformat self
    = SpaceAnalyzer.Figures stats →
    SpaceAnalyzer.total_spaces stats = length (SpaceAnalyzer.spaces_data self) ∧
    (0 < SpaceAnalyzer.total_spaces stats)%nat ∧
    (SpaceAnalyzer.spaces_with_location stats
     ≤ SpaceAnalyzer.total_spaces stats)%nat ∧
    (SpaceAnalyzer.currently_open stats
     ≤ SpaceAnalyzer.spaces_with_state stats
     ≤ SpaceAnalyzer.total_spaces stats)%nat ∧
    (SpaceAnalyzer.open_percentage stats = NInt 0
     ↔ SpaceAnalyzer.spaces_with_state stats = 0%nat).
Proof.
  unfold SpaceAnalyzer.get_basic_stats.
  destruct (SpaceAnalyzer.spaces_data self) as [|space spaces] eqn:E.
  { split; [done|]. intros stats [=]. }
  split; [done|]. intros stats [= <-]. cbn [SpaceAnalyzer.total_spaces
    SpaceAnalyzer.spaces_with_location SpaceAnalyzer.spaces_with_state
    SpaceAnalyzer.currently_open SpaceAnalyzer.open_percentage].
  split_and!.
  - done.
  - simpl. lia.
  - apply (count_if_le_length _ (space :: spaces)).
  - apply count_if_mono. unfold SpaceAnalyzer.is_open. intros x.
    by destruct (SpaceStatus.state x).
  - apply (count_if_le_length _ (space :: spaces)).
  - unfold percentage.
    destruct (count_if _ (space :: spaces)) as [|n]; simpl; [done|].
    split; [done|lia].
Qed.

(** ** The located spaces and their regions *)

Lemma sum_values_insert (counts : gmap string nat) (key : string) (n : nat) :
  (sum_values (<[key := n]> counts) + default 0 (counts !! key)
   = sum_values counts + n)%nat.
Proof.
  unfold sum_values.
  assert (Hcomm : ∀ (m : gmap string nat) (j1 j2 : string) (z1 z2 y : nat),
    j1 ≠ j2 → m !! j1 = Some z1 → m !! j2 = Some z2 →
    (y + z2 + z1 = y + z1 + z2)%nat) by (intros; lia).
  destruct (counts !! key) as [old|] eqn:Hk; simpl.
  - rewrite <- insert_delete_eq.
    rewrite map_fold_insert_L; [|by apply Hcomm|by rewrite lookup_delete_eq].
    rewrite (map_fold_delete_L _ _ key old counts); [lia|by apply Hcomm|done].
  - rewrite map_fold_insert_L; [lia|by apply Hcomm|done].
Qed.

(** A float from 30 up is above 0. *)
Lemma from_30_up_is_positive (lat : float) :
  SpaceAnalyzer.between 30 lat 60 = true →
  SFltb (float_const 0) lat = true.
Proof.
  unfold SpaceAnalyzer.between. intros [H _]%andb_true_iff.
  destruct lat as [[]|[]| |[] m e]; vm_compute in H; try done.
Qed.

(** The region of a place is one of eight: none is in North Africa. *)
Lemma region_of_names (lat lon : float) :
  SpaceAnalyzer.region_of lat lon ∈ region_names.
Proof.
  unfold SpaceAnalyzer.region_of, region_names.
  destruct (SFltb (float_const 60) lat); [set_solver|].
  destruct (SpaceAnalyzer.between 30 lat 60) eqn:H30.
  - rewrite (from_30_up_is_positive _ H30).
    repeat (match goal with |- context [if ?b then _ else _] => destruct b end);
      set_solver.
  - repeat (match goal with |- context [if ?b then _ else _] => destruct b end);
      set_solver.
Qed.

(** The loop that groups the locations: what a region holds afterwards. *)
Lemma group_by_region (locs : list SpaceAnalyzer.located)
    (acc : gmap string (list SpaceAnalyzer.located)) (region : string) :
  let step := λ regions loc,
    SpaceAnalyzer.append_to
      (SpaceAnalyzer.region_of (SpaceAnalyzer.loc_lat loc)
                               (SpaceAnalyzer.loc_lon loc)) loc regions in
  let added :=
    List.filter (λ loc, String.eqb
                          (SpaceAnalyzer.region_of (SpaceAnalyzer.loc_lat loc)
                                                   (SpaceAnalyzer.loc_lon loc))
                          region) locs in
  foldl step acc locs !! region
  = if added is [] then acc !! region
    else Some (default [] (acc !! region) ++ added).
Proof.
  cbv zeta. revert acc. induction locs as [|loc locs IH]; intros acc; [done|].
  cbn [foldl List.filter]. rewrite IH.
  set (r := SpaceAnalyzer.region_of (SpaceAnalyzer.loc_lat loc)
                                    (SpaceAnalyzer.loc_lon loc)).
  assert (Hacc : SpaceAnalyzer.append_to r loc acc !! region
                 = if String.eqb r region
                   then Some (default [] (acc !! region) ++ [loc])
                   else acc !! region).
  { unfold SpaceAnalyzer.append_to.
    destruct (String.eqb_spec r region) as [->|Hne].
    - by rewrite lookup_insert_eq.
    - by rewrite lookup_insert_ne. }
  rewrite Hacc. destruct (String.eqb r region); simpl.
  - destruct (List.filter _ locs); [done|]. by rewrite <- app_assoc.
  - done.
Qed.

(** X15. The regions of the geographic distribution: each region has as
    its count the number of located spaces that fall into it, and no entry
    if there is none; the counts add up to [total_locations]; and the
    regions are among eight names, North Africa not being one of them. *)
Theorem regions_partition_the_locations (self : SpaceAnalyzer.t)
    (g : SpaceAnalyzer.geographic_distribution) :
  SpaceAnalyzer.analyze_geographic_distribution self = SpaceAnalyzer.Figures g →
  SpaceAnalyzer.total_locations g = length (SpaceAnalyzer.locations g) ∧
  (∀ region,
     SpaceAnalyzer.regions g !! region
     = counted (count_if
         (λ loc, String.eqb
                   (SpaceAnalyzer.region_of (SpaceAnalyzer.loc_lat loc)
                                            (SpaceAnalyzer.loc_lon loc))
                   region)
         (SpaceAnalyzer.locations g))) ∧
  sum_values (SpaceAnalyzer.regions g) = SpaceAnalyzer.total_locations g ∧
  (∀ region, is_Some (SpaceAnalyzer.regions g !! region) →
             region ∈ region_names) ∧
  SpaceAnalyzer.regions g !! "North Africa" = None.
Proof.
  unfold SpaceAnalyzer.analyze_geographic_distribution.
  destruct (SpaceAnalyzer.spaces_data self) as [|space spaces]; [done|].
  set (locs := omap SpaceAnalyzer.location_of (space :: spaces)).
  intros [= <-]. cbn [SpaceAnalyzer.total_locations SpaceAnalyzer.regions
                      SpaceAnalyzer.locations].
  assert (Hlookup : ∀ region,
    (length <$> foldl (λ regions loc,
       SpaceAnalyzer.append_to
         (SpaceAnalyzer.region_of (SpaceAnalyzer.loc_lat loc)
                                  (SpaceAnalyzer.loc_lon loc)) loc regions)
       ∅ locs) !! region
    = counted (count_if
        (λ loc, String.eqb
                  (SpaceAnalyzer.region_of (SpaceAnalyzer.loc_lat loc)
                                           (SpaceAnalyzer.loc_lon loc))
                  region) locs)).
  { intros region. rewrite lookup_fmap, group_by_region. unfold count_if.
    by destruct (List.filter _ locs). }
  assert (Hnames : ∀ region,
    is_Some ((length <$> foldl (λ regions loc,
       SpaceAnalyzer.append_to
         (SpaceAnalyzer.region_of (SpaceAnalyzer.loc_lat loc)
                                  (SpaceAnalyzer.loc_lon loc)) loc regions)
       ∅ locs) !! region) → region ∈ region_names).
  { intros region. rewrite Hlookup. unfold count_if.
    destruct (List.filter _ locs) as [|loc l] eqn:Hf; [by intros [? [=]]|].
    intros _.
    assert (Hin : In loc (List.filter
      (λ loc, String.eqb
                (SpaceAnalyzer.region_of (SpaceAnalyzer.loc_lat loc)
                                         (SpaceAnalyzer.loc_lon loc))
                region) locs)) by (rewrite Hf; by left).
    apply filter_In in Hin as [_ <-%String.eqb_eq]. apply region_of_names. }
  split_and!; [done|done| |done|].
  - assert (Hsum : ∀ (l : list SpaceAnalyzer.located)
                     (acc : gmap string (list SpaceAnalyzer.located)),
      sum_values (length <$> foldl (λ regions loc,
        SpaceAnalyzer.append_to
          (SpaceAnalyzer.region_of (SpaceAnalyzer.loc_lat loc)
                                   (SpaceAnalyzer.loc_lon loc)) loc regions)
        acc l)
      = (sum_values (length <$> acc) + length l)%nat).
    { induction l as [|loc l IH]; intros acc; [simpl; lia|].
      cbn [foldl]. rewrite IH. unfold SpaceAnalyzer.append_to.
      rewrite fmap_insert, length_app. simpl.
      pose proof (sum_values_insert (length <$> acc)
        (SpaceAnalyzer.region_of (SpaceAnalyzer.loc_lat loc)
                                 (SpaceAnalyzer.loc_lon loc))
        (length (default [] (acc !! SpaceAnalyzer.region_of
                   (SpaceAnalyzer.loc_lat loc) (SpaceAnalyzer.loc_lon loc)))
         + 1)) as Hins.
      rewrite lookup_fmap in Hins.
      destruct (acc !! _); simpl in *; lia. }
    rewrite Hsum, fmap_empty. unfold sum_values. by rewrite map_fold_empty.
  - destruct (_ !! "North Africa") eqn:E; [|done].
    assert (Hin : "North Africa"%string ∈ region_names) by (apply Hnames; eauto).
    unfold region_names in Hin. set_solver.
Qed.

(** X16. Only a space with a latitude and a longitude that are both not 0
    is among the located spaces: a space on the equator or on the prime
    meridian is left out of the locations and of the regions. *)
Theorem zero_coordinates_are_left_out (self : SpaceAnalyzer.t)
    (g : SpaceAnalyzer.geographic_distribution) :
  SpaceAnalyzer.analyze_geographic_distribution self = SpaceAnalyzer.Figures g →
  Forall (λ loc, truthy (JFloat (SpaceAnalyzer.loc_lat loc)) = true ∧
                 truthy (JFloat (SpaceAnalyzer.loc_lon loc)) = true)
         (SpaceAnalyzer.locations g) ∧
  (SpaceAnalyzer.total_locations g
   + count_if on_zero_line (SpaceAnalyzer.spaces_data self)
   ≤ count_if (λ space, is_set (SpaceStatus.location space))
       (SpaceAnalyzer.spaces_data self))%nat.
Proof.
  unfold SpaceAnalyzer.analyze_geographic_distribution.
  destruct (SpaceAnalyzer.spaces_data self) as [|space0 spaces0]; [done|].
  generalize (space0 :: spaces0). clear. intros spaces.
  intros [= <-]. cbn [SpaceAnalyzer.total_locations SpaceAnalyzer.locations].
  assert (Hof : ∀ space loc,
    SpaceAnalyzer.location_of space = Some loc →
    truthy (JFloat (SpaceAnalyzer.loc_lat loc)) = true ∧
    truthy (JFloat (SpaceAnalyzer.loc_lon loc)) = true ∧
    is_set (SpaceStatus.location space) = true ∧
    on_zero_line space = false).
  { intros space loc. unfold SpaceAnalyzer.location_of, on_zero_line.
    destruct (SpaceStatus.location space) as [location|]; [|done].
    destruct (SpaceLocation.lat location) as [[]|],
             (SpaceLocation.lon location) as [[]|]; simpl; try done;
      by intros [= <-]. }
  split.
  - apply Forall_forall. intros loc (space & _ & Hloc)%list_elem_of_omap.
    by apply Hof in Hloc as (? & ? & _).
  - induction spaces as [|space spaces IH]; [done|].
    csimpl. rewrite !count_if_cons.
    destruct (SpaceAnalyzer.location_of space) as [loc|] eqn:Hloc.
    + apply Hof in Hloc as (_ & _ & -> & ->). simpl. lia.
    + destruct (on_zero_line space) eqn:Hz.
      * unfold on_zero_line in Hz.
        destruct (SpaceStatus.location space); [simpl; lia|done].
      * destruct (is_set _); simpl; lia.
Qed.

(** ** The opening patterns *)

Section OpeningPatterns.
Variable now : float.

(** The item of [status_data] of a space with a state. *)
Lemma status_info_of_Ok (space : SpaceStatus.t) (state : SpaceState.t)
    (info : SpaceAnalyzer.status_info) :
  SpaceAnalyzer.status_info_of now space state = Ok info →
  SpaceAnalyzer.status_name info = SpaceStatus.space space ∧
  SpaceAnalyzer.status_open info = SpaceState.open state ∧
  (truthy_attr dump_number (SpaceState.lastchange state) = false →
   SpaceAnalyzer.hours_since_change info = None).
Proof.
  unfold SpaceAnalyzer.status_info_of.
  intros (h & Hh & ->)%omap_ok_Ok. simpl. split_and!; try done.
  destruct (SpaceState.lastchange state) as [lastchange|]; simpl in *.
  - intros Ht. rewrite Ht in Hh. by injection Hh as <-.
  - by injection Hh as <-.
Qed.

(** The items of [status_data]: one for each space with a state, in the
    order of the spaces. *)
Lemma status_data_Ok (spaces : list SpaceStatus.t)
    (l : list SpaceAnalyzer.status_info) :
  SpaceAnalyzer.status_data now spaces = Ok l →
  length l = count_if (λ space, is_set (SpaceStatus.state space)) spaces ∧
  SpaceAnalyzer.status_name <$>
    List.filter (λ s, if SpaceAnalyzer.status_open s is Some true
                      then true else false) l
  = SpaceStatus.space <$> List.filter SpaceAnalyzer.is_open spaces ∧
  length (List.filter (λ s, if SpaceAnalyzer.status_open s is Some false
                            then true else false) l)
  = count_if (λ space,
                match SpaceStatus.state space with
                | Some state =>
                    if SpaceState.open state is Some false then true else false
                | None => false
                end) spaces ∧
  (count_if has_no_lastchange spaces
   ≤ length (List.filter SpaceAnalyzer.changed_recently l))%nat.
Proof.
  revert l. induction spaces as [|space spaces IH]; intros l.
  { by intros [= <-]. }
  cbn [SpaceAnalyzer.status_data List.filter]. rewrite !count_if_cons.
  assert (Ho : SpaceAnalyzer.is_open space
               = match SpaceStatus.state space with
                 | Some state =>
                     if SpaceState.open state is Some true then true else false
                 | None => false
                 end) by done.
  rewrite Ho. unfold has_no_lastchange at 1. clear Ho.
  destruct (SpaceStatus.state space) as [state|] eqn:Hst.
  - intros (info & Hinfo & (l' & Hl' & ->)%omap_ok_Ok)%obind_Ok.
    apply IH in Hl' as (IH1 & IH2 & IH3 & IH4).
    apply status_info_of_Ok in Hinfo as (Hname & Hopen & Hhours).
    cbn [List.filter length]. rewrite Hopen.
    split_and!.
    + simpl. lia.
    + destruct (SpaceState.open state) as [[]|]; csimpl; by rewrite ?Hname, IH2.
    + destruct (SpaceState.open state) as [[]|]; simpl; lia.
    + destruct (truthy_attr dump_number _) eqn:Ht; simpl.
      * destruct (SpaceAnalyzer.changed_recently info); simpl; lia.
      * unfold SpaceAnalyzer.changed_recently at 1.
        rewrite (Hhours eq_refl). simpl. lia.
  - intros Hl. apply IH in Hl as (IH1 & IH2 & IH3 & IH4).
    simpl. split_and!; done.
Qed.

(** X17. The opening patterns, when the analysis returns them: the spaces
    with a state are counted, the open ones are listed by name in their
    order, an open or closed space is counted once, and every space whose
    state has no time of last change (none, or the time 0) counts as
    changed in the last 24 hours. *)
Theorem opening_patterns_counts (self : SpaceAnalyzer.t)
    (p : SpaceAnalyzer.opening_patterns) :
  SpaceAnalyzer.analyze_opening_patterns now self
  = Ok (SpaceAnalyzer.Figures p) →
  let spaces := SpaceAnalyzer.spaces_data self in
  SpaceAnalyzer.total_with_status p
  = count_if (λ space, is_set (SpaceStatus.state space)) spaces ∧
  SpaceAnalyzer.open_count p = count_if SpaceAnalyzer.is_open spaces ∧
  SpaceAnalyzer.open_spaces p
  = SpaceStatus.space <$> List.filter SpaceAnalyzer.is_open spaces ∧
  (SpaceAnalyzer.open_count p + SpaceAnalyzer.closed_count p
   ≤ SpaceAnalyzer.total_with_status p)%nat ∧
  (count_if has_no_lastchange spaces ≤ SpaceAnalyzer.recent_changes p
   ≤ SpaceAnalyzer.total_with_status p)%nat.
Proof.
  unfold SpaceAnalyzer.analyze_opening_patterns.
  destruct (SpaceAnalyzer.spaces_data self) as [|space0 spaces0]; [done|].
  generalize (space0 :: spaces0). clear. intros spaces.
  intros (l & Hl & [= <-])%obind_Ok.
  cbn [SpaceAnalyzer.total_with_status SpaceAnalyzer.open_count
       SpaceAnalyzer.closed_count SpaceAnalyzer.recent_changes
       SpaceAnalyzer.open_spaces].
  apply status_data_Ok in Hl as (H1 & H2 & H3 & H4).
  assert (Hopen : length (List.filter
                    (λ s, if SpaceAnalyzer.status_open s is Some true
                          then true else false) l)
                  = count_if SpaceAnalyzer.is_open spaces).
  { unfold count_if.
    rewrite <- (length_fmap SpaceAnalyzer.status_name), H2.
    by rewrite length_fmap. }
  split_and!; try done.
  - apply (count_if_disjoint _ _ l). intros s.
    by destruct (SpaceAnalyzer.status_open s) as [[]|].
  - apply filter_length_le.
Qed.

(** The loop over the spaces raises for a time of last change that is too
    large for a float, and for nothing else. *)
Lemma status_data_is_ok (spaces : list SpaceStatus.t) :
  is_ok (SpaceAnalyzer.status_data now spaces) = false ↔
  ∃ space state n,
    space ∈ spaces ∧ SpaceStatus.state space = Some state ∧
    SpaceState.lastchange state = Some (NInt n) ∧ float_of_int n = None.
Proof.
  induction spaces as [|space spaces IH]; simpl.
  { split; [done|]. by intros (? & ? & ? & ?%elem_of_nil & _). }
  destruct (SpaceStatus.state space) as [state|] eqn:Hst.
  - assert (Hinfo :
      (∃ info, SpaceAnalyzer.status_info_of now space state = Ok info) ∨
      (SpaceAnalyzer.status_info_of now space state = Raised OverflowError ∧
       ∃ n, SpaceState.lastchange state = Some (NInt n) ∧
            float_of_int n = None)).
    { unfold SpaceAnalyzer.status_info_of.
      destruct (SpaceState.lastchange state) as [[n|f]|]; simpl; eauto.
      - destruct (n =? 0) eqn:Hn; simpl; eauto.
        destruct (float_of_int n) eqn:Hf; simpl; eauto.
      - destruct (match f with S754_zero _ => false | _ => true end);
          simpl; eauto. }
    destruct Hinfo as [[info Hinfo]|[Hinfo (n & Hn & Hf)]].
    + rewrite Hinfo. simpl.
      assert (is_ok (omap_ok (cons info) (SpaceAnalyzer.status_data now spaces))
              = is_ok (SpaceAnalyzer.status_data now spaces)) as ->
        by by destruct (SpaceAnalyzer.status_data now spaces).
      rewrite IH. split.
      * intros (space' & state' & n & Hin & ?). exists space', state', n.
        split; [by right|done].
      * intros (space' & state' & n & [->|Hin]%elem_of_cons & Hst' & Hl & Hf).
        -- exfalso. rewrite Hst in Hst'. injection Hst' as <-.
           unfold SpaceAnalyzer.status_info_of in Hinfo. rewrite Hl in Hinfo.
           simpl in Hinfo. rewrite Hf in Hinfo.
           assert (Hn0 : (n =? 0) = false).
           { apply Z.eqb_neq. intros ->. by vm_compute in Hf. }
           rewrite Hn0 in Hinfo. done.
        -- eauto 10.
    + rewrite Hinfo. simpl. split; [|done]. intros _.
      exists space, state, n. split; [by left|done].
  - rewrite IH. split.
    + intros (space' & state' & n & Hin & ?). exists space', state', n.
      split; [by right|done].
    + intros (space' & state' & n & [->|Hin]%elem_of_cons & Hst' & ?);
        [congruence|eauto 10].
Qed.

(** X18. The analysis of the opening patterns raises exactly when a space
    has a state whose time of last change is an integer too large for a
    float (the [OverflowError] of the subtraction from the current time);
    otherwise it returns. *)
Theorem opening_patterns_overflow (self : SpaceAnalyzer.t) :
  is_ok (SpaceAnalyzer.analyze_opening_patterns now self) = false ↔
  ∃ space state n,
    space ∈ SpaceAnalyzer.spaces_data self ∧
    SpaceStatus.state space = Some state ∧
    SpaceState.lastchange state = Some (NInt n) ∧ float_of_int n = None.
Proof.
  unfold SpaceAnalyzer.analyze_opening_patterns.
  destruct (SpaceAnalyzer.spaces_data self) as [|space0 spaces0] eqn:E.
  { split; [done|]. by intros (? & ? & ? & ?%elem_of_nil & _). }
  rewrite <- status_data_is_ok.
  by destruct (SpaceAnalyzer.status_data now (space0 :: spaces0)).
Qed.

End OpeningPatterns.

(** ** The contact methods *)

(** A count that is incremented or not. *)
Lemma increment_if (b : bool) (key method : string)
    (counts : gmap string nat) :
  let counts' := if b then increment key counts else counts in
  default 0%nat (counts' !! method)
  = (default 0 (counts !! method)
     + (if String.eqb method key && b then 1 else 0))%nat ∧
  (is_Some (counts' !! method)
   ↔ is_Some (counts !! method) ∨ String.eqb method key && b = true).
Proof.
  simpl. destruct b; [|rewrite andb_false_r; split; [lia|naive_solver]].
  unfold increment. rewrite andb_true_r.
  destruct (String.eqb_spec method key) as [->|Hne].
  - rewrite lookup_insert_eq. simpl. split; [lia|naive_solver].
  - rewrite lookup_insert_ne by done. split; [lia|naive_solver].
Qed.

(** The six tests on one contact, as a loop over the counted methods. *)
Lemma count_contact_foldl (contact : SpaceContact.t)
    (counts : gmap string nat) :
  SpaceAnalyzer.count_contact contact counts
  = foldl (λ counts (m : string * (SpaceContact.t → option string)),
             if truthy_attr JStr (m.2 contact)
             then increment m.1 counts else counts)
          counts counted_methods.
Proof. done. Qed.

(** The counts after the six tests on one contact. *)
Lemma count_contact_lookup (contact : SpaceContact.t)
    (counts : gmap string nat) (method : string) :
  let hit := existsb (λ m : string * (SpaceContact.t → option string),
                        String.eqb method m.1 && truthy_attr JStr (m.2 contact))
                     counted_methods in
  default 0%nat (SpaceAnalyzer.count_contact contact counts !! method)
  = (default 0 (counts !! method) + (if hit then 1 else 0))%nat ∧
  (is_Some (SpaceAnalyzer.count_contact contact counts !! method)
   ↔ is_Some (counts !! method) ∨ hit = true).
Proof.
  cbv zeta. rewrite count_contact_foldl.
  set (hit := λ m : string * (SpaceContact.t → option string),
                String.eqb method m.1 && truthy_attr JStr (m.2 contact)).
  assert (Hl : ∀ (l : list (string * (SpaceContact.t → option string)))
                 (acc : gmap string nat),
    let acc' := foldl (λ counts (m : string * (SpaceContact.t → option string)),
                         if truthy_attr JStr (m.2 contact)
                         then increment m.1 counts else counts) acc l in
    default 0%nat (acc' !! method)
    = (default 0 (acc !! method) + count_if hit l)%nat ∧
    (is_Some (acc' !! method) ↔ is_Some (acc !! method) ∨ existsb hit l = true)).
  { induction l as [|m l IH]; intros acc; cbv zeta.
    - simpl. split; [unfold count_if; simpl; lia|naive_solver].
    - cbn [foldl existsb]. rewrite count_if_cons.
      destruct (IH (if truthy_attr JStr (m.2 contact)
                    then increment m.1 acc else acc)) as [-> ->].
      destruct (increment_if (truthy_attr JStr (m.2 contact)) m.1 method acc)
        as [-> ->].
      fold (hit m). split; [lia|].
      rewrite orb_true_iff. naive_solver. }
  destruct (Hl counted_methods counts) as [-> ->]. split; [|done].
  f_equal. unfold counted_methods, count_if. cbn [List.filter existsb].
  unfold hit. cbn [fst snd].
  repeat match goal with
         | |- context [String.eqb method ?name] =>
             destruct (String.eqb_spec method name) as [->|?];
             [simpl;
              repeat match goal with
                     | |- context [truthy_attr JStr ?x] =>
                         destruct (truthy_attr JStr x)
                     end; done|]
         end.
  done.
Qed.

(** The loop over the spaces: the spaces with a contact, and for each
    method the spaces that use it. *)
Lemma count_contacts_lookup (spaces : list SpaceStatus.t) (method : string) :
  let counts := SpaceAnalyzer.count_contacts spaces in
  counts.1 = count_if (λ space, is_set (SpaceStatus.contact space)) spaces ∧
  counts.2 !! method = counted (count_if (uses_method method) spaces).
Proof.
  cbv zeta. unfold SpaceAnalyzer.count_contacts.
  assert (Hacc : ∀ (l : list SpaceStatus.t) (acc : nat * gmap string nat),
    let acc' := foldl (λ acc space,
                  match SpaceStatus.contact space with
                  | Some contact =>
                      (S acc.1, SpaceAnalyzer.count_contact contact acc.2)
                  | None => acc
                  end) acc l in
    acc'.1 = (acc.1 + count_if (λ space, is_set (SpaceStatus.contact space)) l)%nat ∧
    default 0%nat (acc'.2 !! method)
    = (default 0 (acc.2 !! method) + count_if (uses_method method) l)%nat ∧
    (is_Some (acc'.2 !! method)
     ↔ is_Some (acc.2 !! method) ∨ (0 < count_if (uses_method method) l)%nat)).
  { induction l as [|space l IH]; intros acc; cbv zeta.
    - unfold count_if. simpl. split_and!; [lia|lia|]. split; [eauto|].
      intros [?|?]; [done|lia].
    - cbn [foldl]. rewrite !count_if_cons. unfold uses_method at 1 3.
      destruct (IH (match SpaceStatus.contact space with
                    | Some contact =>
                        (S acc.1, SpaceAnalyzer.count_contact contact acc.2)
                    | None => acc
                    end)) as (-> & -> & ->).
      destruct (SpaceStatus.contact space) as [contact|]; cbn [fst snd is_set].
      + destruct (count_contact_lookup contact acc.2 method) as [-> ->].
        destruct (existsb _ counted_methods).
        * split_and!; [lia|lia|]. split; [intros [[?|?]|?]; eauto with lia|].
          intros _. by left; right.
        * split_and!; [lia|lia|]. split; [intros [[?|?]|?]; eauto with lia|].
          intros [?|?]; [by left; left|right; lia].
      + split_and!; [lia|lia|done]. }
  destruct (Hacc spaces (0%nat, ∅)) as (H1 & H2 & H3). clear Hacc.
  destruct (foldl _ (0%nat, ∅) spaces) as [n m].
  cbn [fst snd] in *. rewrite lookup_empty in H2, H3. simpl in *.
  split; [done|].
  destruct (count_if (uses_method method) spaces) as [|k] eqn:Hk; simpl.
  - apply eq_None_not_Some. rewrite H3. intros [[? [=]]|?]. lia.
  - assert (is_Some (m !! method)) as [x Hx] by (apply H3; right; lia).
    rewrite Hx in *. simpl in H2. by subst.
Qed.

(** X19. The contact methods, counted: [spaces_with_contact] is the
    number of spaces with a contact; a method has as its count the number
    of spaces whose contact gives it a value that is not empty, and no
    entry when there is none; only email, irc, twitter, mastodon, facebook
    and phone are counted; no count is larger than [spaces_with_contact];
    and every counted method has a percentage that is a float. *)
Theorem contact_methods_counts (self : SpaceAnalyzer.t)
    (c : SpaceAnalyzer.contact_analysis) :
  SpaceAnalyzer.analyze_contact_methods self = SpaceAnalyzer.Figures c →
  let spaces := SpaceAnalyzer.spaces_data self in
  SpaceAnalyzer.spaces_with_contact c
  = count_if (λ space, is_set (SpaceStatus.contact space)) spaces ∧
  (∀ method,
     SpaceAnalyzer.contact_methods c !! method
     = counted (count_if (uses_method method) spaces)) ∧
  (∀ method n,
     SpaceAnalyzer.contact_methods c !! method = Some n →
     method ∈ counted_methods.*1 ∧
     (0 < n ≤ SpaceAnalyzer.spaces_with_contact c)%nat ∧
     ∃ f, SpaceAnalyzer.contact_percentages c !! method = Some (NFloat f)).
Proof.
  unfold SpaceAnalyzer.analyze_contact_methods.
  destruct (SpaceAnalyzer.spaces_data self) as [|space0 spaces0]; [done|].
  generalize (space0 :: spaces0). clear. intros spaces [= <-].
  cbn [SpaceAnalyzer.spaces_with_contact SpaceAnalyzer.contact_methods
       SpaceAnalyzer.contact_percentages].
  split_and!.
  - apply (count_contacts_lookup spaces ""%string).
  - intros method. apply count_contacts_lookup.
  - intros method n Hn.
    destruct (count_contacts_lookup spaces method) as [Hw Hm].
    cbv zeta in Hw, Hm. rewrite Hm in Hn.
    destruct (count_if (uses_method method) spaces) as [|k] eqn:Hk;
      [done|]. injection Hn as <-.
    assert (Hle : (count_if (uses_method method) spaces
                   ≤ count_if (λ space, is_set (SpaceStatus.contact space))
                       spaces)%nat).
    { apply count_if_mono. intros space. unfold uses_method.
      by destruct (SpaceStatus.contact space). }
    split_and!.
    + assert (∃ space, uses_method method space = true) as [space Hu].
      { unfold count_if in Hk.
        destruct (List.filter _ spaces) as [|space l] eqn:Hf; [done|].
        exists space.
        assert (Hin : In space (List.filter (uses_method method) spaces))
          by (rewrite Hf; by left).
        by apply filter_In in Hin as [_ ?]. }
      unfold uses_method in Hu.
      destruct (SpaceStatus.contact space) as [contact|]; [|done].
      apply existsb_exists in Hu as (m & Hin & [Hm' _]%andb_true_iff).
      apply String.eqb_eq in Hm' as ->.
      apply list_elem_of_fmap. exists m. split; [done|].
      by apply list_elem_of_In.
    + lia.
    + rewrite Hw. lia.
    + rewrite lookup_fmap, Hm. simpl. unfold percentage. rewrite Hw.
      destruct (count_if (λ space, is_set (SpaceStatus.contact space)) spaces);
        [lia|]. simpl. eauto.
Qed.

(** ** The sensor data *)




Section SensorData.
Context `{core : PydanticCore}.


End SensorData.

(** ** The search by criteria *)

Section Criteria.
Variable lower : string → string.

(** The spaces found: the loaded spaces that pass every criterion. *)
Lemma find_spaces_by_criteria_filter (self : SpaceAnalyzer.t)
    (criteria : gmap string json) :
  SpaceAnalyzer.find_spaces_by_criteria lower self criteria
  = List.filter (λ space,
                   forallb (λ item : string * json,
                              SpaceAnalyzer.passes lower space item.1 item.2)
                           (map_to_list criteria))
                (SpaceAnalyzer.spaces_data self).
Proof.
  unfold SpaceAnalyzer.find_spaces_by_criteria.
  by destruct (SpaceAnalyzer.spaces_data self).
Qed.

Lemma passes_all (space : SpaceStatus.t) (criteria : gmap string json) :
  forallb (λ item : string * json,
             SpaceAnalyzer.passes lower space item.1 item.2)
          (map_to_list criteria) = true ↔
  map_Forall (λ key value, SpaceAnalyzer.passes lower space key value = true)
             criteria.
Proof.
  rewrite forallb_forall, map_Forall_to_list, Forall_forall.
  split.
  - intros H [key value] Hin. apply (H (key, value)). by apply list_elem_of_In.
  - intros H [key value] Hin. apply (H (key, value)). by apply list_elem_of_In.
Qed.

Lemma filter_sublist {A} (p : A → bool) (l : list A) :
  List.filter p l `sublist_of` l.
Proof.
  induction l as [|x l IH]; simpl; [done|].
  destruct (p x); by constructor.
Qed.

Lemma filter_filter_sublist {A} (p q : A → bool) (l : list A) :
  (∀ x, p x = true → q x = true) →
  List.filter p l `sublist_of` List.filter q l.
Proof.
  intros Hpq. induction l as [|x l IH]; simpl; [done|].
  destruct (p x) eqn:Hp.
  - rewrite (Hpq _ Hp). by constructor.
  - destruct (q x); [by constructor|done].
Qed.

(** X21. The search by criteria returns the loaded spaces that pass every
    criterion, in their order and each as often as it is loaded; without a
    criterion these are all the spaces; and a search with more criteria
    returns a part of what a search with fewer of them returns. *)
Theorem find_spaces_by_criteria_selects (self : SpaceAnalyzer.t)
    (criteria : gmap string json) :
  SpaceAnalyzer.find_spaces_by_criteria lower self criteria
    `sublist_of` SpaceAnalyzer.spaces_data self ∧
  (∀ space,
     space ∈ SpaceAnalyzer.find_spaces_by_criteria lower self criteria ↔
     space ∈ SpaceAnalyzer.spaces_data self ∧
     map_Forall (λ key value,
                   SpaceAnalyzer.passes lower space key value = true)
                criteria) ∧
  SpaceAnalyzer.find_spaces_by_criteria lower self ∅
  = SpaceAnalyzer.spaces_data self ∧
  (∀ more : gmap string json,
     criteria ⊆ more →
     SpaceAnalyzer.find_spaces_by_criteria lower self more
       `sublist_of` SpaceAnalyzer.find_spaces_by_criteria lower self criteria).
Proof.
  rewrite !find_spaces_by_criteria_filter. split_and!.
  - apply filter_sublist.
  - intros space. rewrite list_elem_of_In, filter_In, <- list_elem_of_In.
    by rewrite passes_all.
  - rewrite map_to_list_empty. simpl.
    induction (SpaceAnalyzer.spaces_data self) as [|x l IH]; simpl; congruence.
  - intros more Hsub. rewrite find_spaces_by_criteria_filter.
    apply filter_filter_sublist. intros space.
    rewrite !passes_all. intros Hmore key value Hk.
    apply (Hmore key value). by eapply lookup_weaken.
Qed.

(** X22. A space without a state passes every criterion on [open]: it is
    found by [open=True] and by [open=False] alike. *)
Theorem stateless_space_is_open_and_closed (self : SpaceAnalyzer.t)
    (space : SpaceStatus.t) (value : json) :
  space ∈ SpaceAnalyzer.spaces_data self →
  SpaceStatus.state space = None →
  space ∈ SpaceAnalyzer.find_spaces_by_criteria lower self
            {[ "open"%string := value ]}.
Proof.
  intros Hin Hst. rewrite find_spaces_by_criteria_filter.
  apply list_elem_of_In, filter_In. split; [by apply list_elem_of_In|].
  apply passes_all, map_Forall_singleton.
  unfold SpaceAnalyzer.passes. simpl. rewrite Hst.
  by destruct value.
Qed.

(** X23. A criterion [has_location] or [has_sensors] with any value but
    [True] selects nothing, and neither does a criterion under another name
    than the four that are known: the search returns every loaded space, so
    [has_location=False] does not find the spaces without a location. *)
Theorem criteria_that_select_nothing (self : SpaceAnalyzer.t)
    (key : string) (value : json) :
  (key ∈ ["has_location"; "has_sensors"]%string ∧
   SpaceAnalyzer.is_True value = false) ∨
  key ∉ ["open"; "has_location"; "has_sensors"; "name_contains"]%string →
  SpaceAnalyzer.find_spaces_by_criteria lower self {[ key := value ]}
  = SpaceAnalyzer.spaces_data self.
Proof.
  intros Hkey. rewrite find_spaces_by_criteria_filter.
  rewrite map_to_list_singleton. cbn [forallb fst snd].
  assert (Hpass : ∀ space, SpaceAnalyzer.passes lower space key value = true).
  { intros space. unfold SpaceAnalyzer.passes.
    destruct Hkey as [[Hin Hv]|Hnot].
    - rewrite Hv, !andb_false_r.
      apply elem_of_cons in Hin as [->|Hin%list_elem_of_singleton];
        [|subst]; simpl; by destruct value.
    - rewrite !not_elem_of_cons in Hnot. destruct_and!.
      repeat match goal with
      | H : key ≠ ?name |- _ =>
          apply String.eqb_neq in H; rewrite H; clear H
      end. simpl. by destruct value. }
  induction (SpaceAnalyzer.spaces_data self) as [|x l IH]; [done|].
  simpl. rewrite Hpass. simpl. congruence.
Qed.

End Criteria.

(** * The claims on the examples *)



(** The claim of C2 at [broken_directory]: the entry that is no URL is not
    dropped, the parse fails. *)
Lemma broken_directory_fails :
  is_ok (SpaceDirectory.from_dict (core := example_core)
           (JDict broken_directory)) = false.
Proof. vm_compute. reflexivity. Qed.

Lemma directory_all_or_nothing_witness :
  ∃ d, SpaceDirectory.from_dict (core := example_core) (JDict directory) = Ok d
       ∧ size (SpaceDirectory.spaces d) = size directory
       ∧ ∀ name, Ok <$> SpaceDirectory.spaces d !! name
                 = url_validator (core := example_core) <$> directory !! name.
Proof.
  apply (proj1 (directory_all_or_nothing (core := example_core) directory)).
  apply map_Forall_to_list. vm_compute. repeat constructor.
Defined.

(** The claim of C3 at [{"space": ""}]: the record has an empty name. *)
Lemma empty_space_name_is_accepted :
  ∃ s, SpaceStatus.init (core := example_core) {[ "space" := JStr "" ]} = Ok s
       ∧ SpaceStatus.space s = ""%string.
Proof. eexists. split; vm_compute; reflexivity. Qed.

Lemma space_is_required_witness :
  failed_with (LineError [Key "space"] missing)
    (SpaceStatus.init (core := example_core) {[ "api" := JStr "0.13" ]}).
Proof.
  apply (proj2 (space_is_required (core := example_core)
                  {[ "api" := JStr "0.13" ]})).
  vm_compute. reflexivity.
Defined.

(** The claim of C4 at [legacy_empty]: the versions are not [[""]]. *)
Lemma empty_legacy_api_gives_default :
  ∃ s, SpaceStatus.init (core := example_core) legacy_empty = Ok s
       ∧ SpaceStatus.api_compatibility s = Some ["14"%string].
Proof. eexists. split; vm_compute; reflexivity. Qed.

Lemma legacy_api_versions_witness :
  ∃ s, SpaceStatus.init (core := example_core) legacy = Ok s
       ∧ SpaceStatus.api_compatibility s = Some ["0.13"%string].
Proof.
  eexists. split; [vm_compute; reflexivity|].
  refine (proj1 (legacy_api_versions (core := example_core) legacy _ _ _)
            "0.13"%string _ _);
    first [discriminate | vm_compute; reflexivity].
Defined.

(** The claim of C5 at [both_versions]: the record has no entry in
    [api_compatibility]. *)
Lemma empty_api_compatibility_is_kept :
  ∃ s, SpaceStatus.init (core := example_core) both_versions = Ok s
       ∧ SpaceStatus.api_compatibility s = Some [].
Proof. eexists. split; vm_compute; reflexivity. Qed.

Lemma record_has_a_version_witness :
  ∃ s, SpaceStatus.init (core := example_core) legacy = Ok s
       ∧ ∃ x l, SpaceStatus.api_compatibility s = Some (x :: l).
Proof.
  eexists. split; [vm_compute; reflexivity|].
  refine (proj2 (record_has_a_version (core := example_core) legacy _ _) _);
    vm_compute; reflexivity.
Defined.

(** The claim of C6 at [metalab_half]: the negative timestamp -0.5 is not
    absent, it is 0. *)
Lemma negative_fraction_becomes_zero :
  ∃ s st, SpaceStatus.init (core := example_core) metalab_half = Ok s
          ∧ SpaceStatus.state s = Some st
          ∧ SpaceState.lastchange st = Some (NInt 0).
Proof. do 2 eexists. split_and!; vm_compute; reflexivity. Qed.

(** The scenario of the timestamp -5, and the timestamp minus infinity,
    which gives no record. *)
Lemma lastchange_is_truncated_then_checked_witness :
  (∃ s st, SpaceStatus.init (core := example_core) metalab = Ok s
           ∧ SpaceStatus.state s = Some st
           ∧ SpaceState.lastchange st = None) ∧
  is_ok (SpaceStatus.init (core := example_core) metalab_infinity) = false.
Proof.
  destruct (lastchange_is_truncated_then_checked (core := example_core))
    as (Hint & _ & _ & _ & _ & Hinf & _ & Hrecord & Hlost).
  split.
  - eexists.
    destruct (Hrecord metalab {[ "lastchange" := JInt (-5) ]} (JInt (-5)) _
                eq_refl eq_refl
                ltac:(vm_compute; reflexivity)) as (st & Hst & Hl).
    exists st. split_and!; [vm_compute; reflexivity|done|].
    rewrite Hint in Hl. by injection Hl.
  - apply (Hlost metalab_infinity
             {[ "lastchange" := JFloat (S754_infinity true) ]}
             (JFloat (S754_infinity true)) eq_refl eq_refl).
    by rewrite Hinf.
Defined.



Lemma legacy_api_is_moved_witness :
  ∃ s, SpaceStatus.init (core := example_core) legacy = Ok s
       ∧ SpaceStatus.api s = None
       ∧ SpaceStatus.api_compatibility s = Some ["0.13"%string].
Proof.
  eexists. split; [vm_compute; reflexivity|].
  refine (legacy_api_is_moved (core := example_core) legacy "0.13" _ _ _ _ _);
    first [discriminate | vm_compute; reflexivity].
Defined.


Example five_endpoints_results :
  (λ url, bool_decide (is_Some (get_space_status (core := example_core)
                                  five_endpoints url))) <$> five_urls
  = [true; false; true; false; true].
Proof. vm_compute. reflexivity. Qed.

(** * The further properties on the examples *)

Lemma lastchange_is_whole_and_not_negative_witness :
  ∃ s st, SpaceStatus.init (core := example_core) full_document = Ok s
          ∧ SpaceStatus.state s = Some st
          ∧ (SpaceState.lastchange st = None ∨
             ∃ n, SpaceState.lastchange st = Some (NInt n) ∧ 0 ≤ n).
Proof.
  do 2 eexists. split; [vm_compute; reflexivity|].
  split; [vm_compute; reflexivity|].
  eapply (lastchange_is_whole_and_not_negative (core := example_core)
            full_document); vm_compute; reflexivity.
Defined.

Lemma unknown_keys_are_ignored_witness :
  SpaceStatus.init (core := example_core)
    (<["ext_ccc" := JStr "erfa"]> metalab)
  = SpaceStatus.init (core := example_core) metalab.
Proof.
  apply (unknown_keys_are_ignored (core := example_core)).
  apply (bool_decide_unpack _). vm_compute. exact I.
Defined.

Lemma coordinates_are_finite_witness :
  ∃ s l, SpaceStatus.init (core := example_core) full_document = Ok s
         ∧ SpaceStatus.location s = Some l
         ∧ (∀ f, SpaceLocation.lat l = Some f → is_finite f = true)
         ∧ (∀ f, SpaceLocation.lon l = Some f → is_finite f = true).
Proof.
  do 2 eexists. split; [vm_compute; reflexivity|].
  split; [vm_compute; reflexivity|].
  eapply (coordinates_are_finite (core := example_core) full_document);
    vm_compute; reflexivity.
Defined.


Lemma unordered_lastchange_loses_the_space_witness :
  get_space_status (core := example_core)
    (λ _, JsonBody (JDict string_lastchange)) "https://s.example/" = None.
Proof.
  eapply (unordered_lastchange_loses_the_space (core := example_core)
            (λ _, JsonBody (JDict string_lastchange)) "https://s.example/"
            string_lastchange {[ "lastchange" := JStr "1700000000" ]}
            (JStr "1700000000")).
  - reflexivity.
  - vm_compute. reflexivity.
  - vm_compute. reflexivity.
  - left. eauto.
Defined.

Lemma malformed_sensors_lose_the_space_witness :
  get_space_status (core := example_core)
    (λ _, JsonBody (JDict list_of_sensors)) "https://s.example/" = None.
Proof.
  eapply (malformed_sensors_lose_the_space (core := example_core)
            (λ _, JsonBody (JDict list_of_sensors)) "https://s.example/"
            list_of_sensors
            (JList [JDict {[ "value" := JFloat (float_lit 43 (-1)) ]}])).
  - reflexivity.
  - vm_compute. reflexivity.
  - left. split; [done|]. intros d. done.
Defined.

Lemma search_spaces_returns_the_matches_witness :
  ∃ urls directory,
    search_spaces (core := example_core) directory_endpoint
      example_directory_url example_lower "LAB" "name" = Return urls ∧
    get_directory (core := example_core) directory_endpoint
      example_directory_url false = Return directory ∧
    urls = ["https://metalab.at/status.json"%string] ∧
    length urls
    = size (filter (λ item : string * Url,
                      str_in (example_lower "LAB") (example_lower item.1) = true)
              (SpaceDirectory.spaces directory)).
Proof.
  eexists.
  destruct (search_spaces_returns_the_matches (core := example_core)
              directory_endpoint example_directory_url example_lower
              "LAB" "name" _ ltac:(vm_compute; reflexivity))
    as (_ & directory & Hd & _ & Hlen).
  exists directory. split_and!; [vm_compute; reflexivity|done|done|done].
Defined.

Lemma empty_query_finds_every_space_witness :
  ∃ urls, search_spaces (core := example_core) directory_endpoint
            example_directory_url example_lower "" "name" = Return urls
          ∧ length urls = 2%nat.
Proof.
  eexists. split.
  - eapply (empty_query_finds_every_space (core := example_core)
              directory_endpoint example_directory_url example_lower);
      vm_compute; reflexivity.
  - vm_compute. reflexivity.
Defined.

Lemma directory_stats_sample_witness :
  ∃ stats d,
    get_directory_stats (core := example_core) directory_endpoint
      example_directory_url "2024-01-01T00:00:00" = Return stats ∧
    directory_endpoint example_directory_url = JsonBody (JDict d) ∧
    total_spaces stats = size d ∧
    length (sample_spaces stats) = Nat.min 10 (size d) ∧
    NoDup (sample_spaces stats).
Proof.
  eexists.
  destruct (directory_stats_sample (core := example_core) directory_endpoint
              example_directory_url "2024-01-01T00:00:00" _
              ltac:(vm_compute; reflexivity))
    as (d & Hd & Hsize & Hlen & Hnd & _).
  exists d. split; [vm_compute; reflexivity|done].
Defined.

Lemma batch_collapses_repeated_urls_witness :
  let results :=
    collect_results
      (fetch_space (core := example_core) five_endpoints
         <$> five_urls ++ five_urls) in
  dom results = list_to_set (five_urls ++ five_urls) ∧
  (size results ≤ 10)%nat.
Proof.
  intros results.
  destruct (batch_collapses_repeated_urls (core := example_core)
              five_endpoints (five_urls ++ five_urls) 10 results)
    as (Hdom & _ & Hsize).
  - by apply as_completed.
  - split; [exact Hdom|exact Hsize].
Defined.

Lemma regions_partition_the_locations_witness :
  ∃ g, SpaceAnalyzer.analyze_geographic_distribution example_analyzer
       = SpaceAnalyzer.Figures g
       ∧ SpaceAnalyzer.total_locations g = 1%nat
       ∧ sum_values (SpaceAnalyzer.regions g) = SpaceAnalyzer.total_locations g
       ∧ SpaceAnalyzer.regions g !! "North Africa" = None.
Proof.
  eexists. split; [vm_compute; reflexivity|].
  destruct (regions_partition_the_locations example_analyzer
              _ ltac:(vm_compute; reflexivity))
    as (_ & _ & Hsum & _ & Hnone).
  split; [vm_compute; reflexivity|]. split; [exact Hsum|exact Hnone].
Defined.

Lemma zero_coordinates_are_left_out_witness :
  ∃ g, SpaceAnalyzer.analyze_geographic_distribution example_analyzer
       = SpaceAnalyzer.Figures g
       ∧ count_if on_zero_line (SpaceAnalyzer.spaces_data example_analyzer)
         = 1%nat
       ∧ (SpaceAnalyzer.total_locations g
          + count_if on_zero_line (SpaceAnalyzer.spaces_data example_analyzer)
          ≤ count_if (λ space, is_set (SpaceStatus.location space))
              (SpaceAnalyzer.spaces_data example_analyzer))%nat.
Proof.
  eexists. split; [vm_compute; reflexivity|].
  destruct (zero_coordinates_are_left_out example_analyzer
              _ ltac:(vm_compute; reflexivity)) as [_ Hle].
  split; [vm_compute; reflexivity|exact Hle].
Defined.

Lemma opening_patterns_counts_witness :
  ∃ p, SpaceAnalyzer.analyze_opening_patterns (float_const 1700003600)
         example_analyzer = Ok (SpaceAnalyzer.Figures p)
       ∧ SpaceAnalyzer.total_with_status p = 3%nat
       ∧ SpaceAnalyzer.open_spaces p = ["Metalab"%string]
       ∧ (2 ≤ SpaceAnalyzer.recent_changes p)%nat.
Proof.
  eexists. split; [vm_compute; reflexivity|].
  split; [vm_compute; reflexivity|].
  destruct (opening_patterns_counts (float_const 1700003600) example_analyzer
              _ ltac:(vm_compute; reflexivity))
    as (_ & _ & Hopen & _ & Hrecent & _).
  split; [rewrite Hopen; vm_compute; reflexivity|].
  etrans; [|exact Hrecent]. vm_compute. lia.
Defined.

Lemma contact_methods_counts_witness :
  ∃ c, SpaceAnalyzer.analyze_contact_methods example_analyzer
       = SpaceAnalyzer.Figures c
       ∧ SpaceAnalyzer.contact_methods c !! "email" = Some 1%nat
       ∧ SpaceAnalyzer.contact_methods c !! "irc" = None.
Proof.
  eexists. split; [vm_compute; reflexivity|].
  destruct (contact_methods_counts example_analyzer
              _ ltac:(vm_compute; reflexivity)) as (_ & Hcount & _).
  split; rewrite Hcount; vm_compute; reflexivity.
Defined.



Lemma stateless_space_is_open_and_closed_witness :
  ∃ space, record_of legacy = Some space ∧
    space ∈ SpaceAnalyzer.find_spaces_by_criteria example_lower
              example_analyzer {[ "open"%string := JBool true ]} ∧
    space ∈ SpaceAnalyzer.find_spaces_by_criteria example_lower
              example_analyzer {[ "open"%string := JBool false ]}.
Proof.
  eexists. split; [vm_compute; reflexivity|].
  split; apply stateless_space_is_open_and_closed;
    first [ reflexivity | do 3 right; left ].
Defined.

Lemma criteria_that_select_nothing_witness :
  SpaceAnalyzer.find_spaces_by_criteria example_lower example_analyzer
    {[ "has_location"%string := JBool false ]}
  = SpaceAnalyzer.spaces_data example_analyzer.
Proof.
  apply criteria_that_select_nothing. left. split; [|done].
  apply list_elem_of_here.
Defined.
